(** * datamgr: schema-driven form ingestion (src/main.go)

    A shallow embedding of the schema compiler [Parse], the field resolver
    [fetchValue], the dispatchers [ServeHTTP] and the file materializer
    [Perform], followed by the properties of the specification that concern
    them.

    Go maps are finite maps ([gmap]); a loop [for k, v := range m] visits
    [map_to_list m].  Go leaves the visiting order unspecified, so the
    statements below that speak of aggregated errors are about the entries,
    not their order.  Pointers that may be nil are options.  Everything the
    program obtains from its libraries and from the operating system (YAML
    decoding, template parsing and execution, the wall clock and its
    formatting, the outcome of file-system calls) is gathered in a [Host]. *)

From Stdlib Require Import ZArith Lia Ascii.
From stdpp Require Import base strings gmap list pretty.

Local Open Scope Z_scope.

(** ** Constants *)

Definition DatamgrFile : string := "datamgr.yaml".
Definition DefaultMaxMemory : Z := Z.shiftl 32 20.

(** The codes share one [const] block; [TypeCodeBool = iota] is its fifth
    specification, hence 4. *)
Definition FormatCodeYAML : Z := 1.
Definition TypeCodeString : Z := 1.
Definition TypeCodeBool : Z := 4.
Definition GenerateCodeTimestamp : Z := 1.

(** [time.RFC3339] and the layout [Parse] fills in. *)
Definition RFC3339 : string := "2006-01-02T15:04:05Z07:00".
Definition DefaultTimestampFormat : string := "20060102.150405.999999999".

Definition StatusSeeOther : Z := 303.
Definition StatusBadRequest : Z := 400.
Definition StatusNotFound : Z := 404.
Definition StatusInternalServerError : Z := 500.

(** ** Data model *)

(** [interface{}] as the program uses it: nil, the strings and booleans that
    [fetchValue] stores, and scalars a schema may put under [value]. *)
Inductive any :=
| VNil
| VStr (s : string)
| VBool (b : bool)
| VInt (n : Z).

Global Instance any_eq_dec : EqDecision any.
Proof. solve_decision. Defined.

Record ConfigField := {
  Internal : bool;
  Value : any;
  Type_ : string;
  typeCode : Z;
  Generate : string;
  generateCode : Z;
  Required : bool;
  Format : string;
}.

(** A [*template.Template]: its name and, once a text was parsed into it,
    that text. *)
Record Template := {
  tmpl_name : string;
  tmpl_text : option string;
}.

Record ConfigCreateFile := {
  Name : string;
  nameTemplate : option Template;
  cf_Format : string;
  formatCode : Z;
}.

Record ConfigReceive := {
  Fields : gmap string ConfigField;
  CreateFile : option ConfigCreateFile;
}.

Record Config := {
  Receive : gmap string (option ConfigReceive);
}.

Record Process := {
  p_ConfigReceive : ConfigReceive;
  p_Fields : gmap string ConfigField;
}.

(** The zero values [var config Config] and a decoded field start from. *)
Definition zeroField : ConfigField :=
  {| Internal := false; Value := VNil; Type_ := ""; typeCode := 0;
     Generate := ""; generateCode := 0; Required := false; Format := "" |}.

Definition zeroConfig : Config := {| Receive := ∅ |}.

(** Assignments to single struct fields. *)
Definition set_Value (f : ConfigField) (v : any) : ConfigField :=
  {| Internal := Internal f; Value := v; Type_ := Type_ f;
     typeCode := typeCode f; Generate := Generate f;
     generateCode := generateCode f; Required := Required f;
     Format := Format f |}.

Definition set_Format (f : ConfigField) (s : string) : ConfigField :=
  {| Internal := Internal f; Value := Value f; Type_ := Type_ f;
     typeCode := typeCode f; Generate := Generate f;
     generateCode := generateCode f; Required := Required f;
     Format := s |}.

Definition set_typeCode (f : ConfigField) (c : Z) : ConfigField :=
  {| Internal := Internal f; Value := Value f; Type_ := Type_ f;
     typeCode := c; Generate := Generate f;
     generateCode := generateCode f; Required := Required f;
     Format := Format f |}.

Definition set_generateCode (f : ConfigField) (c : Z) : ConfigField :=
  {| Internal := Internal f; Value := Value f; Type_ := Type_ f;
     typeCode := typeCode f; Generate := Generate f;
     generateCode := c; Required := Required f;
     Format := Format f |}.

Definition set_nameTemplate (c : ConfigCreateFile) (t : option Template)
  : ConfigCreateFile :=
  {| Name := Name c; nameTemplate := t; cf_Format := cf_Format c;
     formatCode := formatCode c |}.

Definition set_formatCode (c : ConfigCreateFile) (n : Z) : ConfigCreateFile :=
  {| Name := Name c; nameTemplate := nameTemplate c; cf_Format := cf_Format c;
     formatCode := n |}.

Definition set_Fields (r : ConfigReceive) (m : gmap string ConfigField)
  : ConfigReceive :=
  {| Fields := m; CreateFile := CreateFile r |}.

Definition set_CreateFile (r : ConfigReceive) (c : option ConfigCreateFile)
  : ConfigReceive :=
  {| Fields := Fields r; CreateFile := c |}.

(** ** Errors *)

(** An [error] value is an ordinary error, known by its message, or a
    [*multierror.Error] holding the messages of the errors appended to it. *)
Inductive error :=
| Plain (msg : string)
| Multi (errs : list string).

(** [strings.Join]. *)
Fixpoint join (sep : string) (l : list string) : string :=
  match l with
  | [] => ""
  | [x] => x
  | x :: l => x +:+ sep +:+ join sep l
  end.

Definition NL : string := String (ascii_of_nat 10) "".
Definition TAB : string := String (ascii_of_nat 9) "".

(** [multierror.ListFormatFunc], the default [ErrorFormat]. *)
Definition ListFormatFunc (es : list string) : string :=
  match es with
  | [e] => "1 error occurred:" +:+ NL +:+ TAB +:+ "* " +:+ e +:+ NL +:+ NL
  | _ =>
    pretty (length es) +:+ " errors occurred:" +:+ NL +:+ TAB
      +:+ join (NL +:+ TAB) ((λ e, "* " +:+ e) <$> es) +:+ NL +:+ NL
  end.

(** [err.Error()]. *)
Definition Error (e : error) : string :=
  match e with
  | Plain m => m
  | Multi es => ListFormatFunc es
  end.

(** The entries an error contributes when it is appended: a multierror is
    flattened. *)
Definition entries (e : error) : list string :=
  match e with
  | Plain m => [m]
  | Multi es => es
  end.

(** [multierror.Append(err, e)]: the entries of the resulting multierror. *)
Definition multierror_Append (err : option error) (e : error) : list string :=
  match err with
  | None => entries e
  | Some (Multi es) => es ++ entries e
  | Some (Plain m) => m :: entries e
  end.

(** [ErrorOrNil] of a multierror. *)
Definition ErrorOrNil (es : list string) : option error :=
  match es with
  | [] => None
  | _ => Some (Multi es)
  end.

(** The statement [err = multierror.Append(err, e).ErrorOrNil()]. *)
Definition append_error (err : option error) (e : error) : option error :=
  ErrorOrNil (multierror_Append err e).

(** [fmt.Errorf] with its verbs already substituted. *)
Definition Errorf (msg : string) : error := Plain msg.

Definition DQ : string := String (ascii_of_nat 34) "".

(** [%v] of a [[]string]. *)
Definition show_strings (v : list string) : string :=
  "[" +:+ join " " v +:+ "]".

(** ** Library functions that are modelled in full *)

(** [strconv.ParseBool]; [None] is its syntax error. *)
Definition ParseBool (str : string) : option bool :=
  if bool_decide (str ∈ ["1"; "t"; "T"; "true"; "TRUE"; "True"]) then Some true
  else if bool_decide (str ∈ ["0"; "f"; "F"; "false"; "FALSE"; "False"])
  then Some false
  else None.

Definition slash : ascii := ascii_of_nat 47.

(** The text that follows the last slash of [s], and [s] itself when it has
    none: [path[strings.LastIndex(path, "/")+1:]]. *)
Fixpoint after_last_slash (s : string) : string :=
  match s with
  | EmptyString => EmptyString
  | String c s' =>
    if bool_decide (slash ∈ String.list_ascii_of_string s')
    then after_last_slash s'
    else if bool_decide (c = slash) then s' else s
  end.

(** [s] without its trailing slashes. *)
Fixpoint strip_trailing_slashes (s : string) : string :=
  match s with
  | EmptyString => EmptyString
  | String c s' =>
    match strip_trailing_slashes s' with
    | EmptyString => if bool_decide (c = slash) then EmptyString else String c EmptyString
    | r => String c r
    end
  end.

(** [path.Base]. *)
Definition path_Base (path : string) : string :=
  if bool_decide (path = "") then "."
  else
    let path := after_last_slash (strip_trailing_slashes path) in
    if bool_decide (path = "") then "/" else path.

(** [url.Values]: [values[key]] is nil when the key is absent. *)
Definition values_index (values : gmap string (list string)) (key : string)
  : list string :=
  default [] (values !! key).

(** [url.Values.Get]. *)
Definition values_Get (values : gmap string (list string)) (key : string)
  : string :=
  match values_index values key with
  | [] => ""
  | x :: _ => x
  end.

(** ** Requests, effects and the host *)

Inductive form_error :=
| ErrNotMultipart
| FormError (msg : string).

(** A request, with what the form parsers of net/http make of its body:
    the result of [ParseMultipartForm], the result of [ParseForm] when it is
    called after that, and the values found in [r.Form]. *)
Record Request := {
  Method : string;
  URL_Path : string;
  Referer : string;
  ParseMultipartForm : option form_error;
  ParseForm : option string;
  Form : gmap string (list string);
}.

(** What a handler does to the outside, in order: log lines, calls on the
    [http.ResponseWriter], and file-system calls. *)
Inductive event :=
| Printf (format : string) (args : list any)
| NotFound
| HttpError (msg : string) (code : Z)
| Redirect (url : string) (code : Z)
| MkdirAll (dir : string) (perm : Z)
| Create (name : string)
| Encode (name : string) (data : gmap string any)
| Close (name : string).

(** An instant in UTC. *)
Record Instant := {
  year : N; month : N; day : N;
  hour : N; minute : N; second : N; nanosecond : N;
}.

(** The clock readings taken so far and the events so far, oldest first. *)
Record World := {
  ticks : nat;
  trace : list event;
}.

Record Host := {
  (** [yaml.Unmarshal(data, c)]: the updated [c] and the error. *)
  yaml_Unmarshal : string → Config → Config * option string;
  (** the error of parsing a text as a template that may call [field] *)
  template_Parse : string → option string;
  (** the error of [Clone] *)
  template_Clone : Template → option string;
  (** [Execute] with [field] bound to a function returning the given map:
      the text written and the error *)
  template_Execute : Template → gmap string any → Process → string * option string;
  (** the successive readings of [time.Now().UTC()] *)
  clock : nat → Instant;
  (** [Time.Format] *)
  time_Format : Instant → string → string;
  (** the error of a file-system call, given the events before it *)
  os_error : list event → event → option string;
}.

Inductive outcome (A : Type) :=
| Ret (a : A)
| Panic (msg : string).
Arguments Ret {A} a.
Arguments Panic {A} msg.

(** Computations that change the world and may panic. *)
Definition M (A : Type) : Type := World → outcome A * World.

Definition ret {A} (a : A) : M A := λ w, (Ret a, w).

Definition bind {A B} (m : M A) (k : A → M B) : M B :=
  λ w, match m w with
       | (Ret a, w') => k a w'
       | (Panic msg, w') => (Panic msg, w')
       end.

Definition panic {A} (msg : string) : M A := λ w, (Panic msg, w).

Global Instance M_ret : MRet M := @ret.
Global Instance M_bind : MBind M := λ A B k m, bind m k.

Definition emit (e : event) : M unit :=
  λ w, (Ret tt, {| ticks := ticks w; trace := trace w ++ [e] |}).

Fixpoint foldM {A B} (f : A → B → M A) (a : A) (l : list B) : M A :=
  match l with
  | [] => ret a
  | b :: l => a' ← f a b; foldM f a' l
  end.

Definition log_Printf (format : string) (args : list any) : M unit :=
  emit (Printf format args).

Definition http_Error (msg : string) (code : Z) : M unit :=
  emit (HttpError msg code).

Definition http_Redirect (url : string) (code : Z) : M unit :=
  emit (Redirect url code).

Definition http_NotFound : M unit := emit NotFound.


(** ** The program *)

Section Program.
Context (host : Host).

(** [time.Now().UTC()]: the next reading of the clock. *)
Definition time_Now : M Instant :=
  λ w, (Ret (clock host (ticks w)),
        {| ticks := S (ticks w); trace := trace w |}).

(** A file-system call: the host decides whether it fails. *)
Definition syscall (e : event) : M (option string) :=
  λ w, (Ret (os_error host (trace w) e),
        {| ticks := ticks w; trace := trace w ++ [e] |}).

(** *** Config.Parse *)

(** The body of the loop over the fields of a route. *)
Definition parseField (endpoint fName : string) (f : ConfigField)
    (err : option error) : ConfigField * option error :=
  let '(f, err) :=
    if bool_decide (Generate f = "") then (f, err)
    else if bool_decide (Generate f = "timestamp") then
      let f := set_generateCode f GenerateCodeTimestamp in
      let f := if bool_decide (Format f = "")
               then set_Format f DefaultTimestampFormat else f in
      (f, err)
    else
      (f, append_error err (Errorf (
         "receive[" +:+ endpoint +:+ "].fields." +:+ fName
         +:+ ".generate unexpected " +:+ Generate f
         +:+ ", expected " +:+ DQ +:+ "timestamp" +:+ DQ))) in
  if bool_decide (Type_ f = "") || bool_decide (Type_ f = "string")
  then (set_typeCode f TypeCodeString, err)
  else if bool_decide (Type_ f = "bool")
  then (set_typeCode f TypeCodeBool, err)
  else
    (f, append_error err (Errorf (
       "receive[" +:+ endpoint +:+ "].fields." +:+ fName
       +:+ ".type unexpected type " +:+ Type_ f
       +:+ ", expected " +:+ DQ +:+ "string" +:+ DQ +:+ " or "
       +:+ DQ +:+ "bool" +:+ DQ))).

(** The loop over [r.Fields], storing each field back under its name. *)
Definition parseFields (endpoint : string) (fields : gmap string ConfigField)
    (err : option error) : gmap string ConfigField * option error :=
  foldl (λ '(fields, err) '(fName, f),
           let '(f, err) := parseField endpoint fName f err in
           (<[fName := f]> fields, err))
        (fields, err) (map_to_list fields).

(** The body of [if r.CreateFile != nil]. *)
Definition parseCreateFile (endpoint : string) (cf : ConfigCreateFile)
    (err : option error) : ConfigCreateFile * option error :=
  let e := template_Parse host (Name cf) in
  let t := {| tmpl_name := "create_file.name";
              tmpl_text := match e with
                           | None => Some (Name cf)
                           | Some _ => None
                           end |} in
  let cf := set_nameTemplate cf (Some t) in
  let err :=
    match e with
    | Some e =>
      append_error err (Errorf (
        "receive[" +:+ endpoint +:+ "].create_file.name template error, " +:+ e))
    | None => err
    end in
  if bool_decide (cf_Format cf = "yaml") || bool_decide (cf_Format cf = "")
  then (set_formatCode cf FormatCodeYAML, err)
  else
    (cf, append_error err (Errorf (
       "receive[" +:+ endpoint +:+ "].create_file.format unexpected format "
       +:+ cf_Format cf +:+ ", expected " +:+ DQ +:+ "yaml" +:+ DQ))).

(** The body of the loop over [c.Receive], for a route that is not nil. *)
Definition parseRoute (endpoint : string) (r : ConfigReceive)
    (err : option error) : ConfigReceive * option error :=
  let '(fields, err) := parseFields endpoint (Fields r) err in
  let r := set_Fields r fields in
  match CreateFile r with
  | Some cf =>
    let '(cf, err) := parseCreateFile endpoint cf err in
    (set_CreateFile r (Some cf), err)
  | None => (r, err)
  end.

(** The loop over [c.Receive]; reading the fields of a nil route panics. *)
Fixpoint parseRoutes (l : list (string * option ConfigReceive))
    (receive : gmap string (option ConfigReceive)) (err : option error)
    : outcome (gmap string (option ConfigReceive) * option error) :=
  match l with
  | [] => Ret (receive, err)
  | (endpoint, None) :: _ => Panic "nil pointer dereference"
  | (endpoint, Some r) :: l =>
    let '(r, err) := parseRoute endpoint r err in
    parseRoutes l (<[endpoint := Some r]> receive) err
  end.

(** [(c *Config) Parse(data)]: the configuration afterwards and the error
    returned. *)
Definition Parse (c : Config) (data : string) : outcome (Config * option error) :=
  let '(c, e) := yaml_Unmarshal host data c in
  match e with
  | Some m => Ret (c, Some (Plain m))
  | None =>
    match parseRoutes (map_to_list (Receive c)) (Receive c) None with
    | Ret (receive, err) => Ret ({| Receive := receive |}, err)
    | Panic msg => Panic msg
    end
  end.

(** *** Field resolution *)

Definition generateTimestamp (format : string) : M string :=
  let format := if bool_decide (format = "") then RFC3339 else format in
  now ← time_Now;
  ret (time_Format host now format).

Definition fetchValue (f : ConfigField) (name : string)
    (values : gmap string (list string)) : M (ConfigField * option error) :=
  let v := values_index values ("field." +:+ name) in
  f ← (if bool_decide (generateCode f = GenerateCodeTimestamp)
        then ts ← generateTimestamp (Format f); ret (set_Value f (VStr ts))
        else ret f);
  if Internal f then ret (f, None)
  else if bool_decide (length v = 0%nat) then
    let err :=
      if Required f
      then Some (Errorf ("required field field." +:+ name +:+ " not set"))
      else None in
    log_Printf "[DEBUG] Empty field.%s" [VStr name];;
    ret (f, err)
  else
    let last := default "" (v !! (length v - 1)%nat) in
    let '(f, err) :=
      if bool_decide (typeCode f = TypeCodeString)
      then (set_Value f (VStr last), None)
      else if bool_decide (typeCode f = TypeCodeBool) then
        match ParseBool last with
        | Some b => (set_Value f (VBool b), None)
        | None =>
          (set_Value f (VBool false),
           Some (Errorf ("cannot parse field field." +:+ name
                         +:+ " to boolean (value is " +:+ show_strings v +:+ ")")))
        end
      else (f, None) in
    log_Printf "[DEBUG] Parse field.%s=%#v" [VStr name; Value f];;
    ret (f, err).

(** *** File materialization *)

Definition fieldMap (c : Process) : gmap string any :=
  foldl (λ res '(name, field), <[name := Value field]> res)
        ∅ (map_to_list (p_Fields c)).

Definition Perform (c : ConfigCreateFile) (r : Process) : M unit :=
  match CreateFile (p_ConfigReceive r) with
  | None => panic "nil pointer dereference"
  | Some rc =>
    match nameTemplate rc with
    | None => panic "nil pointer dereference"
    | Some t =>
      match template_Clone host t with
      | Some err =>
        log_Printf "[ERROR] Failed to initialize file name template, %v"
                   [VStr (Name c); VStr err];;
        http_Error "Internal server error." StatusInternalServerError
      | None =>
        match template_Execute host t (fieldMap r) r with
        | (_, Some err) =>
          log_Printf "[ERROR] Failed to build file name from template %+v, %v"
                     [VStr (Name c); VStr err];;
          http_Error "Could not process request due to misconfiguration."
                     StatusInternalServerError
        | (fileName, None) =>
          log_Printf "[DEBUG] Create file %v" [VStr fileName];;
          let dir := path_Base fileName in
          err ← syscall (MkdirAll dir 493);
          match err with
          | Some err =>
            log_Printf "[ERROR] Failed to create directory %v, %v"
                       [VStr dir; VStr err];;
            http_Error "Could not process request due to a system error, please try again later."
                       StatusInternalServerError
          | None =>
            err ← syscall (Create fileName);
            match err with
            | Some err =>
              log_Printf "[ERROR] Failed to create file %v, %v"
                         [VStr fileName; VStr err];;
              http_Error "Could not process request due to a system error, please try again later."
                         StatusInternalServerError
            | None =>
              (* [defer f.Close()] runs on every way out from here on *)
              if bool_decide (formatCode c = FormatCodeYAML) then
                err ← syscall (Encode fileName (fieldMap r));
                match err with
                | Some err =>
                  log_Printf "[ERROR] Failed to encode file %v, %v"
                             [VStr fileName; VStr err];;
                  http_Error "Could not process request because of data error."
                             StatusInternalServerError;;
                  emit (Close fileName)
                | None => emit (Close fileName)
                end
              else
                emit (Close fileName);;
                panic "Unexpected format"
            end
          end
        end
      end
    end
  end.

(** *** Dispatch *)

(** The loop of [ServeHTTP] over [c.Fields], body first: the aggregated
    error and [process.Fields]. *)
Definition resolveField (form : gmap string (list string))
    (acc : option error * gmap string ConfigField)
    (entry : string * ConfigField)
    : M (option error * gmap string ConfigField) :=
  let '(err, fields) := acc in
  let '(fieldName, field) := entry in
  '(field, e) ← fetchValue field fieldName form;
  let err := match e with
             | Some e => append_error err e
             | None => err
             end in
  ret (err, <[fieldName := field]> fields).

Definition resolveFields (c : ConfigReceive)
    (form : gmap string (list string)) (err : option error)
    : M (option error * gmap string ConfigField) :=
  foldM (resolveField form) (err, ∅) (map_to_list (Fields c)).

Definition ConfigReceive_ServeHTTP (c : ConfigReceive) (r : Request) : M unit :=
  let err :=
    match ParseMultipartForm r with
    | Some ErrNotMultipart => ParseForm r
    | Some (FormError m) => Some m
    | None => None
    end in
  match err with
  | Some m => http_Error ("Error parsing form: " +:+ m) StatusBadRequest
  | None =>
    '(err, fields) ← resolveFields c (Form r) None;
    let process := {| p_ConfigReceive := c; p_Fields := fields |} in
    match err with
    | Some err => http_Error (Error err) StatusBadRequest
    | None =>
      match CreateFile c with
      | Some cf => Perform cf process
      | None => ret tt
      end;;
      let cb := values_Get (Form r) "callback" in
      if bool_decide (cb ≠ "")
      then http_Redirect cb StatusSeeOther
      else http_Redirect (Referer r) StatusSeeOther
    end
  end.

Definition Config_ServeHTTP (c : Config) (r : Request) : M unit :=
  match Receive c !! URL_Path r with
  | Some (Some handler) =>
    log_Printf "%s %s" [VStr (Method r); VStr (URL_Path r)];;
    ConfigReceive_ServeHTTP handler r
  | _ =>
    log_Printf "%s %s: 404 Not Found" [VStr (Method r); VStr (URL_Path r)];;
    http_NotFound
  end.

End Program.

(** ** Notions the specification uses *)

(** [s] occurs in [msg]. *)
Definition contains (msg s : string) : Prop :=
  ∃ pre post, msg = pre +:+ s +:+ post.

(** [s] is the rendering of some instant under [layout]. *)
Definition matches_layout (host : Host) (layout s : string) : Prop :=
  ∃ t, s = time_Format host t layout.

(** The layout a timestamp field is rendered with. *)
Definition layout_of (f : ConfigField) : string :=
  if bool_decide (Format f = "") then RFC3339 else Format f.

Definition is_Printf (e : event) : bool :=
  match e with
  | Printf _ _ => true
  | _ => false
  end.

(** The request's form was parsed, as multipart or as an ordinary form. *)
Definition form_parsed (r : Request) : Prop :=
  ParseMultipartForm r = None
  ∨ (ParseMultipartForm r = Some ErrNotMultipart ∧ ParseForm r = None).

(** Where a successful request is redirected to. *)
Definition redirect_target (r : Request) : string :=
  match values_index (Form r) "callback" with
  | cb :: _ => if bool_decide (cb = "") then Referer r else cb
  | [] => Referer r
  end.

Definition w_init : World := {| ticks := 0; trace := [] |}.

(** The error [fetchValue] returns for a field; it does not depend on the
    world the call starts in (lemma [fetchValue_error]). *)
Definition fetchError (host : Host) (f : ConfigField) (name : string)
    (values : gmap string (list string)) : option error :=
  match fetchValue host f name values w_init with
  | (Ret (_, e), _) => e
  | (Panic _, _) => None
  end.

(** The entries of the error a request's fields aggregate to. *)
Definition request_errors (host : Host) (c : ConfigReceive)
    (form : gmap string (list string)) : list string :=
  '(name, f) ← map_to_list (Fields c);
  from_option entries [] (fetchError host f name form).

(** The structural defects of a decoded schema, after section 4.1 of the
    specification: an unknown [generate], an unknown [type], a path template
    that does not parse, an unknown file format. *)
Inductive defect :=
| UnknownGenerate (endpoint fName generate : string)
| UnknownType (endpoint fName type : string)
| InvalidTemplate (endpoint reason : string)
| UnknownFormat (endpoint format : string).

Definition field_defects (endpoint fName : string) (f : ConfigField)
  : list defect :=
  (if bool_decide (Generate f ∈ [""; "timestamp"]) then []
   else [UnknownGenerate endpoint fName (Generate f)])
  ++ (if bool_decide (Type_ f ∈ [""; "string"; "bool"]) then []
      else [UnknownType endpoint fName (Type_ f)]).

Definition file_defects (host : Host) (endpoint : string)
    (cf : ConfigCreateFile) : list defect :=
  match template_Parse host (Name cf) with
  | Some reason => [InvalidTemplate endpoint reason]
  | None => []
  end
  ++ (if bool_decide (cf_Format cf ∈ ["yaml"; ""]) then []
      else [UnknownFormat endpoint (cf_Format cf)]).

Definition route_defects (host : Host) (endpoint : string)
    (r : ConfigReceive) : list defect :=
  ('(fName, f) ← map_to_list (Fields r); field_defects endpoint fName f)
  ++ from_option (file_defects host endpoint) [] (CreateFile r).

Definition defects (host : Host) (c : Config) : list defect :=
  '(endpoint, r) ← map_to_list (Receive c);
  from_option (route_defects host endpoint) [] r.

(** The entry [Parse] reports for a defect. *)
Definition defect_message (d : defect) : string :=
  match d with
  | UnknownGenerate endpoint fName g =>
    "receive[" +:+ endpoint +:+ "].fields." +:+ fName
    +:+ ".generate unexpected " +:+ g
    +:+ ", expected " +:+ DQ +:+ "timestamp" +:+ DQ
  | UnknownType endpoint fName ty =>
    "receive[" +:+ endpoint +:+ "].fields." +:+ fName
    +:+ ".type unexpected type " +:+ ty
    +:+ ", expected " +:+ DQ +:+ "string" +:+ DQ +:+ " or "
    +:+ DQ +:+ "bool" +:+ DQ
  | InvalidTemplate endpoint reason =>
    "receive[" +:+ endpoint +:+ "].create_file.name template error, " +:+ reason
  | UnknownFormat endpoint fmt =>
    "receive[" +:+ endpoint +:+ "].create_file.format unexpected format "
    +:+ fmt +:+ ", expected " +:+ DQ +:+ "yaml" +:+ DQ
  end.

(** No route of the schema is null. *)
Definition routes_present (c : Config) : Prop :=
  ∀ endpoint, Receive c !! endpoint ≠ Some None.

(** The unexported code of a decoded field is still zero: [yaml.Unmarshal]
    does not write it. *)
Definition undecoded_codes_zero (c : Config) : Prop :=
  ∀ endpoint r fName f,
    Receive c !! endpoint = Some (Some r) →
    Fields r !! fName = Some f →
    generateCode f = 0.

(** [r'] is what [Parse] makes of the decoded route [r] of [endpoint]:
    each field and the file specification went through the loop body. *)
Definition compiled_route (host : Host) (endpoint : string)
    (r r' : ConfigReceive) : Prop :=
  (∀ fName, Fields r' !! fName
            = (λ f, (parseField endpoint fName f None).1) <$> Fields r !! fName)
  ∧ CreateFile r'
    = (λ cf, (parseCreateFile host endpoint cf None).1) <$> CreateFile r.

(** ** A concrete host and schema, for the examples *)

Definition digit (n : N) : ascii := ascii_of_N (48 + n mod 10)%N.

(** The last [k] decimal digits of [n]. *)
Fixpoint digits (k : nat) (n : N) : string :=
  match k with
  | O => ""
  | S k => digits k (n / 10)%N +:+ String (digit n) ""
  end.

Fixpoint string_drop (n : nat) (s : string) : string :=
  match n, s with
  | S n, String _ s => string_drop n s
  | _, _ => s
  end.

Fixpoint string_take (n : nat) (s : string) : string :=
  match n, s with
  | S n, String c s => String c (string_take n s)
  | _, _ => ""
  end.

(** The number of leading characters of [s] equal to [c]. *)
Fixpoint run_length (c : ascii) (s : string) : nat :=
  match s with
  | String c' s => if bool_decide (c' = c) then S (run_length c s) else O
  | EmptyString => O
  end.

Definition starts_with_digit (s : string) : bool :=
  match s with
  | String c _ => bool_decide (is_Some (Ascii.is_nat c))
  | EmptyString => false
  end.

(** A fraction of a second, [k] digits of it, without its trailing zeros
    and without the point when nothing is left. *)
Definition fraction_trimmed (k : nat) (ns : N) : string :=
  let d := String.rev (string_drop (run_length "0" (String.rev (string_take k (digits 9 ns))))
                                   (String.rev (string_take k (digits 9 ns)))) in
  if bool_decide (d = "") then "" else "." +:+ d.

(** Rendering in the manner of [Time.Format], for the numeric elements of
    a layout: year, month, day, hour, minute, second, fraction and the
    zone of UTC.  Everything else is copied. *)
Fixpoint sample_format (fuel : nat) (t : Instant) (layout : string) : string :=
  match fuel with
  | O => ""
  | S fuel =>
    if String.prefix "2006" layout
    then digits 4 (year t) +:+ sample_format fuel t (string_drop 4 layout)
    else if String.prefix "01" layout
    then digits 2 (month t) +:+ sample_format fuel t (string_drop 2 layout)
    else if String.prefix "02" layout
    then digits 2 (day t) +:+ sample_format fuel t (string_drop 2 layout)
    else if String.prefix "15" layout
    then digits 2 (hour t) +:+ sample_format fuel t (string_drop 2 layout)
    else if String.prefix "04" layout
    then digits 2 (minute t) +:+ sample_format fuel t (string_drop 2 layout)
    else if String.prefix "05" layout
    then digits 2 (second t) +:+ sample_format fuel t (string_drop 2 layout)
    else if String.prefix "Z07:00" layout
    then "Z" +:+ sample_format fuel t (string_drop 6 layout)
    else
      match layout with
      | EmptyString => ""
      | String c rest =>
        let k9 := run_length "9" rest in
        let k0 := run_length "0" rest in
        if bool_decide (c = "."%char) && bool_decide (0 < k9)%nat
           && negb (starts_with_digit (string_drop k9 rest))
        then fraction_trimmed k9 (nanosecond t)
               +:+ sample_format fuel t (string_drop k9 rest)
        else if bool_decide (c = "."%char) && bool_decide (0 < k0)%nat
                && negb (starts_with_digit (string_drop k0 rest))
        then "." +:+ string_take k0 (digits 9 (nanosecond t))
               +:+ sample_format fuel t (string_drop k0 rest)
        else String c (sample_format fuel t rest)
      end
  end.

Definition sample_Format (t : Instant) (layout : string) : string :=
  sample_format (S (String.length layout)) t layout.

Definition sample_instant : Instant :=
  {| year := 2026; month := 10; day := 31;
     hour := 13; minute := 21; second := 7; nanosecond := 250000000 |}%N.

(** A template engine that knows literal texts only: a text with an action
    opener is reported as malformed, any other text renders as itself. *)
Definition sample_template_Parse (text : string) : option string :=
  match String.index 0 "{{" text with
  | Some _ => Some "template: create_file.name:1: unclosed action"
  | None => None
  end.

Definition sample_template_Execute (t : Template) (fields : gmap string any)
    (p : Process) : string * option string :=
  match tmpl_text t with
  | Some text => (text, None)
  | None => ("", Some "template: create_file.name: incomplete or empty template")
  end.

(** The route [/signup]: a required [name], a generated [joined_at] and a
    file. *)
Definition sample_signup : ConfigReceive :=
  {| Fields :=
       {[ "name" := {| Internal := false; Value := VNil; Type_ := "";
                       typeCode := 0; Generate := ""; generateCode := 0;
                       Required := true; Format := "" |};
          "joined_at" := {| Internal := false; Value := VNil; Type_ := "";
                            typeCode := 0; Generate := "timestamp";
                            generateCode := 0; Required := false;
                            Format := "" |} ]};
     CreateFile := Some {| Name := "out/record.yaml"; nameTemplate := None;
                           cf_Format := ""; formatCode := 0 |} |}.

Definition sample_schema : Config :=
  {| Receive := {[ "/signup" := Some sample_signup ]} |}.

Definition sample_document : string :=
  "receive: {/signup: {fields: {name: {required: true}, joined_at: {generate: timestamp}}, create_file: {name: out/record.yaml}}}".

(** A schema with four defects in one route and a fifth in another. *)
Definition broken_schema : Config :=
  {| Receive :=
       {[ "/a" := Some
            {| Fields :=
                 {[ "x" := {| Internal := false; Value := VNil;
                              Type_ := "int"; typeCode := 0;
                              Generate := "uuid"; generateCode := 0;
                              Required := false; Format := "" |} ]};
               CreateFile := Some {| Name := "{{"; nameTemplate := None;
                                     cf_Format := "json"; formatCode := 0 |} |};
          "/b" := Some
            {| Fields :=
                 {[ "y" := {| Internal := false; Value := VNil;
                              Type_ := "float"; typeCode := 0;
                              Generate := ""; generateCode := 0;
                              Required := false; Format := "" |} ]};
               CreateFile := None |} ]} |}.

Definition broken_document : string :=
  "receive: {/a: {fields: {x: {type: int, generate: uuid}}, create_file: {name: '{{', format: json}}, /b: {fields: {y: {type: float}}}}".

Definition sample_yaml_Unmarshal (data : string) (c : Config)
  : Config * option string :=
  if bool_decide (data = sample_document) then (sample_schema, None)
  else if bool_decide (data = broken_document) then (broken_schema, None)
  else (c, Some "yaml: unsupported document").

Definition sample_clock (n : nat) : Instant :=
  {| year := 2026; month := 10; day := 31;
     hour := 13; minute := 21; second := 7;
     nanosecond := 250000000 + N.of_nat n |}%N.

(** A host on which every file-system call succeeds. *)
Definition sample_host : Host :=
  {| yaml_Unmarshal := sample_yaml_Unmarshal;
     template_Parse := sample_template_Parse;
     template_Clone := λ _, None;
     template_Execute := sample_template_Execute;
     clock := sample_clock;
     time_Format := sample_Format;
     os_error := λ _ _, None |}.

(** The same host on a read-only file system. *)
Definition readonly_host : Host :=
  {| yaml_Unmarshal := sample_yaml_Unmarshal;
     template_Parse := sample_template_Parse;
     template_Clone := λ _, None;
     template_Execute := sample_template_Execute;
     clock := sample_clock;
     time_Format := sample_Format;
     os_error := λ _ e, match e with
                        | MkdirAll _ _ | Create _ | Encode _ _ =>
                          Some "read-only file system"
                        | _ => None
                        end |}.

(** The route [/signup] as [Parse] leaves it. *)
Definition compiled_signup : ConfigReceive :=
  fst (parseRoute sample_host "/signup" sample_signup None).

Definition compiled_name : ConfigField :=
  default zeroField (Fields compiled_signup !! "name").

Definition compiled_joined_at : ConfigField :=
  default zeroField (Fields compiled_signup !! "joined_at").

Definition sample_post (form : gmap string (list string)) : Request :=
  {| Method := "POST"; URL_Path := "/signup";
     Referer := "http://example.org/form";
     ParseMultipartForm := Some ErrNotMultipart; ParseForm := None;
     Form := form |}.

(** The schema [/signup] as [Parse] leaves it. *)
Definition compiled_schema : Config :=
  {| Receive := {[ "/signup" := Some compiled_signup ]} |}.

Definition compiled_template : Template :=
  {| tmpl_name := "create_file.name"; tmpl_text := Some "out/record.yaml" |}.

Definition compiled_file : ConfigCreateFile :=
  {| Name := "out/record.yaml"; nameTemplate := Some compiled_template;
     cf_Format := ""; formatCode := FormatCodeYAML |}.

(** A request in the middle of [ServeHTTP], and two forms. *)
Definition sample_process : Process :=
  {| p_ConfigReceive := compiled_signup; p_Fields := Fields compiled_signup |}.

Definition sample_form : gmap string (list string) :=
  {[ "field.name" := ["alice"]; "callback" := ["/thanks"] ]}.

Definition nameless_form : gmap string (list string) :=
  {[ "field.joined_at" := ["yesterday"] ]}.

(** Two optional fields without generation, as [Parse] leaves them. *)
Definition optional_nick : ConfigField :=
  fst (parseField "/signup" "nick" zeroField None).

Definition optional_newsletter : ConfigField :=
  fst (parseField "/signup" "newsletter"
         {| Internal := false; Value := VNil; Type_ := "bool"; typeCode := 0;
            Generate := ""; generateCode := 0; Required := false;
            Format := "" |} None).

(** An internal, required, generated field. *)
Definition internal_stamp : ConfigField :=
  fst (parseField "/signup" "stamp"
         {| Internal := true; Value := VNil; Type_ := "bool"; typeCode := 0;
            Generate := "timestamp"; generateCode := 0; Required := true;
            Format := "2006-01-02" |} None).

(** ** Further notions and sample data *)

(** Calls on the [http.ResponseWriter]. *)
Definition is_response (e : event) : bool :=
  match e with
  | NotFound | HttpError _ _ | Redirect _ _ => true
  | _ => false
  end.

(** Calls on the file system. *)
Definition is_fs_call (e : event) : bool :=
  match e with
  | MkdirAll _ _ | Create _ | Encode _ _ | Close _ => true
  | _ => false
  end.

(** The field has [generateCode == GenerateCodeTimestamp]. *)
Definition generated (f : ConfigField) : bool :=
  bool_decide (generateCode f = GenerateCodeTimestamp).

(** [f'] has the attributes that the schema document gave [f]. *)
Definition declared_alike (f f' : ConfigField) : Prop :=
  Internal f' = Internal f ∧ Value f' = Value f ∧ Type_ f' = Type_ f
  ∧ Generate f' = Generate f ∧ Required f' = Required f.

(** The fields of a route that fail to resolve against a form. *)
Definition failing_fields (host : Host) (c : ConfigReceive)
    (form : gmap string (list string)) : list (string * ConfigField) :=
  filter (λ kf, is_Some (fetchError host kf.2 kf.1 form))
         (map_to_list (Fields c)).

(** The route [/signup] without its file. *)
Definition plain_signup : ConfigReceive :=
  {| Fields := Fields compiled_signup; CreateFile := None |}.


(** A file specification whose format [Parse] rejected. *)
Definition rejected_file : ConfigCreateFile :=
  {| Name := "out/record.yaml"; nameTemplate := Some compiled_template;
     cf_Format := "json"; formatCode := 0 |}.

Definition rejected_process : Process :=
  {| p_ConfigReceive := {| Fields := Fields compiled_signup;
                           CreateFile := Some rejected_file |};
     p_Fields := Fields compiled_signup |}.




(** A template that was never parsed: executing it fails. *)
Definition empty_template : Template :=
  {| tmpl_name := "create_file.name"; tmpl_text := None |}.

Definition unparsed_file : ConfigCreateFile :=
  {| Name := "{{"; nameTemplate := Some empty_template;
     cf_Format := ""; formatCode := FormatCodeYAML |}.

Definition unparsed_process : Process :=
  {| p_ConfigReceive := {| Fields := Fields compiled_signup;
                           CreateFile := Some unparsed_file |};
     p_Fields := Fields compiled_signup |}.

(** A schema with a defect in one route and a null second route, and a
    host that decodes it. *)
Definition null_route_schema : Config :=
  {| Receive :=
       {[ "/a" := Some
            {| Fields :=
                 {[ "x" := {| Internal := false; Value := VNil;
                              Type_ := "int"; typeCode := 0;
                              Generate := ""; generateCode := 0;
                              Required := false; Format := "" |} ]};
               CreateFile := None |};
          "/b" := None ]} |}.

Definition null_route_document : string :=
  "receive: {/a: {fields: {x: {type: int}}}, /b: ~}".

Definition mistyped_document : string :=
  "receive: {/a: {fields: {x: {type: int, required: [1]}}}}".

Definition lenient_host : Host :=
  {| yaml_Unmarshal := λ data c,
       if bool_decide (data = null_route_document)
       then (null_route_schema, None)
       else if bool_decide (data = mistyped_document)
       then (broken_schema,
             Some "yaml: unmarshal errors: line 1: cannot unmarshal !!seq into bool")
       else sample_yaml_Unmarshal data c;
     template_Parse := sample_template_Parse;
     template_Clone := λ _, None;
     template_Execute := sample_template_Execute;
     clock := sample_clock;
     time_Format := sample_Format;
     os_error := λ _ _, None |}.

(** A required timestamp field that is not internal, and a bool-typed
    one, as [Parse] leaves them. *)
Definition required_stamp : ConfigField :=
  fst (parseField "/signup" "stamp"
         {| Internal := false; Value := VNil; Type_ := ""; typeCode := 0;
            Generate := "timestamp"; generateCode := 0; Required := true;
            Format := "2006-01-02" |} None).

Definition bool_stamp : ConfigField :=
  fst (parseField "/signup" "stamp"
         {| Internal := false; Value := VNil; Type_ := "bool"; typeCode := 0;
            Generate := "timestamp"; generateCode := 0; Required := false;
            Format := "2006-01-02" |} None).


(** The four ways a request is answered, as the calls on the response
    writer among the events [evs]: not found, rejected, redirected, and
    redirected after an error of status 500 was already sent. *)
Definition answer_shape (evs : list event) : Prop :=
  filter is_response evs = [NotFound]
  ∨ (∃ msg, filter is_response evs = [HttpError msg StatusBadRequest])
  ∨ (∃ url, filter is_response evs = [Redirect url StatusSeeOther])
  ∨ (∃ msg url, filter is_response evs
                = [HttpError msg StatusInternalServerError;
                   Redirect url StatusSeeOther]).

(** * Properties *)

(** ** Strings and aggregated errors *)

Lemma string_app_assoc (a b c : string) : (a +:+ b) +:+ c = a +:+ b +:+ c.
Proof.
  induction a as [|x a IH]; [done|].
  change (String x ((a +:+ b) +:+ c) = String x (a +:+ b +:+ c)).
  by f_equal.
Qed.

Lemma string_app_nil_r (a : string) : a +:+ "" = a.
Proof.
  induction a as [|x a IH]; [done|].
  change (String x (a +:+ "") = String x a). by f_equal.
Qed.

Lemma contains_refl s : contains s s.
Proof. exists "", "". by rewrite string_app_nil_r. Qed.

Lemma contains_app_l a b s : contains b s → contains (a +:+ b) s.
Proof.
  intros (pre & post & ->). exists (a +:+ pre), post.
  by rewrite string_app_assoc.
Qed.

Lemma contains_app_r a b s : contains a s → contains (a +:+ b) s.
Proof.
  intros (pre & post & ->). exists pre, (post +:+ b).
  by rewrite !string_app_assoc.
Qed.

Lemma contains_trans a b c : contains a b → contains b c → contains a c.
Proof.
  intros (p1 & q1 & ->) (p2 & q2 & ->).
  apply contains_app_l, contains_app_r, contains_app_l, contains_app_r,
    contains_refl.
Qed.

Lemma join_contains sep (l : list string) x : x ∈ l → contains (join sep l) x.
Proof.
  induction l as [|y l IH]; [by intros ?%elem_of_nil|].
  intros [->|Hx]%elem_of_cons.
  - destruct l; simpl; [apply contains_refl|].
    apply contains_app_r, contains_refl.
  - destruct l as [|z l]; [by apply elem_of_nil in Hx|].
    change (join sep (y :: z :: l)) with (y +:+ sep +:+ join sep (z :: l)).
    by apply contains_app_l, contains_app_l, IH.
Qed.

(** Every entry of a multierror occurs in its message. *)
Lemma ListFormatFunc_contains (es : list string) e :
  e ∈ es → contains (ListFormatFunc es) e.
Proof.
  intros He.
  assert (contains (join (NL +:+ TAB) ((λ e, "* " +:+ e) <$> es)) e) as Hj.
  { eapply contains_trans.
    - apply join_contains, (list_elem_of_fmap_2 _ _ _ He).
    - apply contains_app_l, contains_refl. }
  unfold ListFormatFunc.
  destruct es as [|e1 [|e2 es]].
  - by apply elem_of_nil in He.
  - apply list_elem_of_singleton in He as ->.
    apply contains_app_l, contains_app_l, contains_app_l, contains_app_l,
      contains_app_r, contains_refl.
  - by apply contains_app_l, contains_app_l, contains_app_l, contains_app_l,
      contains_app_r.
Qed.

Lemma append_error_ErrorOrNil (l : list string) (e : error) :
  append_error (ErrorOrNil l) e = ErrorOrNil (l ++ entries e).
Proof. by destruct l. Qed.

Lemma ErrorOrNil_None (l : list string) : ErrorOrNil l = None ↔ l = [].
Proof. by destruct l. Qed.

(** ** Field resolution *)

Ltac unfold_M :=
  cbv [mbind M_bind bind mret M_ret ret log_Printf http_Error http_Redirect
       http_NotFound emit time_Now syscall panic].

Lemma generateTimestamp_eq host format w :
  generateTimestamp host format w =
  (Ret (time_Format host (clock host (ticks w))
          (if bool_decide (format = "") then RFC3339 else format)),
   {| ticks := S (ticks w); trace := trace w |}).
Proof. reflexivity. Qed.

Lemma last_index (v : list string) :
  default "" (v !! (length v - 1)%nat) = default "" (last v).
Proof. by rewrite last_lookup, Nat.sub_1_r. Qed.

Lemma values_index_lookup (values : gmap string (list string)) key v :
  values !! key = Some v → values_index values key = v.
Proof. unfold values_index. by intros ->. Qed.

(** C7: an internal field is resolved without looking at the submitted
    values: the outcome is the same whatever was submitted, no error is
    returned, and the value is the generated timestamp, or the value the
    field already had when nothing is generated. *)
Theorem internal_field_ignores_submission host f name values values' w :
  Internal f = true →
  fetchValue host f name values w = fetchValue host f name values' w
  ∧ fetchValue host f name values w =
      if bool_decide (generateCode f = GenerateCodeTimestamp)
      then (Ret (set_Value f (VStr (time_Format host (clock host (ticks w))
                                      (layout_of f))), None),
            {| ticks := S (ticks w); trace := trace w |})
      else (Ret (f, None), w).
Proof.
  intros Hint. unfold fetchValue, layout_of. unfold_M.
  case_bool_decide; rewrite ?generateTimestamp_eq; simpl; rewrite Hint; done.
Qed.

(** [fetchValue] always returns, and what it does to the world is to read
    the clock and to log. *)
Lemma fetchValue_returns host f name values w :
  ∃ f' err n logs,
    fetchValue host f name values w =
      (Ret (f', err), {| ticks := ticks w + n; trace := trace w ++ logs |})
    ∧ forallb is_Printf logs = true.
Proof.
  unfold fetchValue. unfold_M.
  destruct w as [tk tr].
  case_bool_decide; rewrite ?generateTimestamp_eq; simpl;
    destruct (Internal f); simpl;
    repeat (case_bool_decide; simpl);
    try destruct (ParseBool _); simpl;
    try (by eexists _, _, 0%nat, []; rewrite Nat.add_0_r, app_nil_r);
    try (by eexists _, _, 1%nat, []; rewrite Nat.add_1_r, app_nil_r);
    try (by eexists _, _, 0%nat, [_]; rewrite Nat.add_0_r);
    try (by eexists _, _, 1%nat, [_]; rewrite Nat.add_1_r).
Qed.

(** The error of [fetchValue] is the same in every world. *)
Lemma fetchValue_error host f name values w :
  ∃ f' w', fetchValue host f name values w
           = (Ret (f', fetchError host f name values), w').
Proof.
  unfold fetchError, fetchValue. unfold_M.
  case_bool_decide; rewrite ?generateTimestamp_eq; simpl;
    destruct (Internal f); simpl;
    repeat (case_bool_decide; simpl);
    try destruct (ParseBool _); simpl; by eexists _, _.
Qed.

(** C1, as amended: a timestamp field is first given the rendering of the
    current instant under its layout.  That value stands when the field is
    internal or nothing was submitted under its name; otherwise the last
    submitted value, read according to the type of the field, replaces it. *)
Theorem generated_timestamp_resolution host f name values w :
  generateCode f = GenerateCodeTimestamp →
  let ts := time_Format host (clock host (ticks w)) (layout_of f) in
  let v := values_index values ("field." +:+ name) in
  ∃ f' err w',
    fetchValue host f name values w = (Ret (f', err), w')
    ∧ matches_layout host (layout_of f) ts
    ∧ (Internal f = true ∨ v = [] → Value f' = VStr ts)
    ∧ (Internal f = false → ∀ x, last v = Some x →
         (typeCode f = TypeCodeString → Value f' = VStr x)
         ∧ (typeCode f = TypeCodeBool →
              Value f' = VBool (default false (ParseBool x)))).
Proof.
  intros Hgen ts v. unfold fetchValue. unfold_M.
  rewrite bool_decide_true by done. rewrite generateTimestamp_eq. simpl.
  fold v. fold (layout_of f). fold ts.
  assert (matches_layout host (layout_of f) ts) as Hm by (by eexists).
  destruct (Internal f) eqn:Hint; simpl.
  { eexists _, _, _. split_and!; [done..|]. done. }
  rewrite last_index.
  destruct v as [|v0 v'] eqn:Hv; simpl.
  { eexists _, _, _. split_and!; [done..|]. intros _ x [=]. }
  destruct (last (v0 :: v')) as [x|] eqn:Hlast;
    [|by apply last_None in Hlast].
  simpl. unfold TypeCodeBool, TypeCodeString.
  repeat case_bool_decide; simpl; try destruct (ParseBool x) eqn:Hpb; simpl;
    eexists _, _, _; (split_and!; [done|done|by intros [|]|]);
    intros _ y [= <-]; rewrite ?Hpb; split; intros; simpl; congruence.
Qed.

(** C3, as amended: an optional field without generation for which
    nothing was submitted resolves without error and keeps the value it
    had, which is nil unless the schema gave it one. *)
Theorem optional_absent_field_unchanged host f name values w :
  generateCode f ≠ GenerateCodeTimestamp →
  Internal f = false →
  Required f = false →
  values_index values ("field." +:+ name) = [] →
  fetchValue host f name values w =
    (Ret (f, None),
     {| ticks := ticks w;
        trace := trace w ++ [Printf "[DEBUG] Empty field.%s" [VStr name]] |}).
Proof.
  intros Hgen Hint Hreq Hv. unfold fetchValue. unfold_M.
  rewrite bool_decide_false by done. simpl.
  by rewrite Hint, Hv, Hreq.
Qed.

Lemma bool_decide_elem_of_cons (x a : string) (l : list string) :
  bool_decide (x ∈ a :: l) = bool_decide (x = a) || bool_decide (x ∈ l).
Proof. rewrite <- bool_decide_or. apply bool_decide_ext, elem_of_cons. Qed.

Lemma bool_decide_elem_of_nil (x : string) : bool_decide (x ∈ @nil string) = false.
Proof. apply bool_decide_false, not_elem_of_nil. Qed.

Ltac split_membership :=
  rewrite ?bool_decide_elem_of_cons, ?bool_decide_elem_of_nil, ?orb_false_r.

Lemma parseField_Internal endpoint fName f err :
  Internal (parseField endpoint fName f err).1 = Internal f.
Proof.
  unfold parseField.
  repeat (case_bool_decide; simpl); done.
Qed.

Lemma parseField_typeCode endpoint fName f err :
  typeCode (parseField endpoint fName f err).1 =
    if bool_decide (Type_ f ∈ [""; "string"]) then TypeCodeString
    else if bool_decide (Type_ f = "bool") then TypeCodeBool
    else typeCode f.
Proof.
  unfold parseField. split_membership.
  repeat (case_bool_decide; simpl); done.
Qed.

(** C5: for a field that is not internal, with values submitted under
    its name, the last of them is used: as it is for a string field, parsed
    by [ParseBool] for a bool field, where a text that does not parse gives
    the coercion error. *)
Theorem last_submitted_value_wins host endpoint name f0 err0 values w v x :
  let f := (parseField endpoint name f0 err0).1 in
  Internal f0 = false →
  values !! ("field." +:+ name) = Some v →
  last v = Some x →
  ∃ f' err w',
    fetchValue host f name values w = (Ret (f', err), w')
    ∧ (Type_ f0 = "" ∨ Type_ f0 = "string" →
         Value f' = VStr x ∧ err = None)
    ∧ (Type_ f0 = "bool" →
         match ParseBool x with
         | Some b => Value f' = VBool b ∧ err = None
         | None =>
           err = Some (Errorf ("cannot parse field field." +:+ name
                     +:+ " to boolean (value is " +:+ show_strings v +:+ ")"))
         end).
Proof.
  intros f Hint Hv Hlast.
  assert (Internal f = false) as Hint' by (by unfold f; rewrite parseField_Internal).
  assert (typeCode f = _) as Htc by apply parseField_typeCode.
  clearbody f. unfold fetchValue. unfold_M.
  rewrite (values_index_lookup _ _ _ Hv), last_index, Hlast.
  assert (length v ≠ 0%nat) as Hlen by (by destruct v).
  destruct (bool_decide (generateCode f = GenerateCodeTimestamp));
    rewrite ?generateTimestamp_eq; simpl;
    rewrite Hint'; rewrite (bool_decide_false (length v = 0%nat)) by done;
    simpl; rewrite Htc; split_membership;
    repeat (case_bool_decide; simpl); try destruct (ParseBool x); simpl;
    eexists _, _, _; (split; [done|]); split; intros;
    try done; try congruence; try (destruct_or!; congruence).
Qed.

(** A rendered digit is never a letter. *)
Lemma digit_not_a n : digit n ≠ "a"%char.
Proof.
  unfold digit.
  pose proof (N.mod_upper_bound n 10 ltac:(done)) as Hlt.
  destruct (n mod 10)%N as [|p]; [done|].
  do 4 (try destruct p as [p|p|]); try done; lia.
Qed.

Lemma internal_field_ignores_submission_witness :
  Internal internal_stamp = true
  ∧ fetchValue sample_host internal_stamp "stamp"
      {[ "field.stamp" := ["notabool"] ]} w_init
    = fetchValue sample_host internal_stamp "stamp" ∅ w_init
  ∧ fetchValue sample_host internal_stamp "stamp"
      {[ "field.stamp" := ["notabool"] ]} w_init
    = (Ret (set_Value internal_stamp (VStr "2026-10-31"), None),
       {| ticks := 1; trace := [] |}).
Proof.
  split; [reflexivity|].
  destruct (internal_field_ignores_submission sample_host internal_stamp
              "stamp" {[ "field.stamp" := ["notabool"] ]} ∅ w_init eq_refl)
    as [H1 H2].
  split; [exact H1|]. rewrite H2. vm_compute. reflexivity.
Defined.

(** C1, as stated, fails: on the route [/signup] the generated field
    [joined_at] is not internal, and a request that submits
    [field.joined_at=alice] has it resolved to ["alice"], which is the
    rendering of no instant under the layout of the field. *)
Lemma submitted_value_replaces_timestamp :
  generateCode compiled_joined_at = GenerateCodeTimestamp
  ∧ fetchValue sample_host compiled_joined_at "joined_at"
      {[ "field.joined_at" := ["alice"] ]} w_init
    = (Ret (set_Value compiled_joined_at (VStr "alice"), None),
       {| ticks := 1;
          trace := [Printf "[DEBUG] Parse field.%s=%#v"
                      [VStr "joined_at"; VStr "alice"]] |})
  ∧ ¬ matches_layout sample_host (layout_of compiled_joined_at) "alice".
Proof.
  split; [reflexivity|]. split; [vm_compute; reflexivity|].
  intros [t Ht].
  assert (layout_of compiled_joined_at = DefaultTimestampFormat) as Hl
    by (vm_compute; reflexivity).
  rewrite Hl in Ht.
  cbv -[digit N.div fraction_trimmed] in Ht.
  injection Ht as Hc _. symmetry in Hc. by apply digit_not_a in Hc.
Qed.

Lemma generated_timestamp_resolution_witness :
  generateCode compiled_joined_at = GenerateCodeTimestamp
  ∧ ∃ f' err w',
      fetchValue sample_host compiled_joined_at "joined_at"
        {[ "field.joined_at" := ["x"; "bob"] ]} w_init = (Ret (f', err), w')
      ∧ Value f' = VStr "bob".
Proof.
  split; [reflexivity|].
  destruct (generated_timestamp_resolution sample_host compiled_joined_at
              "joined_at" {[ "field.joined_at" := ["x"; "bob"] ]} w_init
              eq_refl) as (f' & err & w' & Hrun & _ & _ & Hsub).
  exists f', err, w'. split; [exact Hrun|].
  assert (last (values_index ({[ "field.joined_at" := ["x"; "bob"] ]}
                                : gmap string (list string))
                  ("field." +:+ "joined_at")) = Some "bob") as Hv
    by (vm_compute; reflexivity).
  exact (proj1 (Hsub eq_refl "bob" Hv) eq_refl).
Defined.

(** C3, as stated, fails: the optional string field [nick], for which
    nothing was submitted, resolves to nil and not to the empty string, and
    the optional bool field [newsletter] to nil and not to [false]. *)
Lemma absent_optional_field_is_nil :
  typeCode optional_nick = TypeCodeString
  ∧ typeCode optional_newsletter = TypeCodeBool
  ∧ fetchValue sample_host optional_nick "nick" ∅ w_init
    = (Ret (optional_nick, None),
       {| ticks := 0;
          trace := [Printf "[DEBUG] Empty field.%s" [VStr "nick"]] |})
  ∧ fetchValue sample_host optional_newsletter "newsletter" ∅ w_init
    = (Ret (optional_newsletter, None),
       {| ticks := 0;
          trace := [Printf "[DEBUG] Empty field.%s" [VStr "newsletter"]] |})
  ∧ Value optional_nick = VNil ∧ Value optional_nick ≠ VStr ""
  ∧ Value optional_newsletter = VNil
  ∧ Value optional_newsletter ≠ VBool false.
Proof.
  split_and!; try (vm_compute; reflexivity); by vm_compute.
Qed.

Lemma optional_absent_field_unchanged_witness :
  generateCode optional_newsletter ≠ GenerateCodeTimestamp
  ∧ Internal optional_newsletter = false
  ∧ Required optional_newsletter = false
  ∧ fetchValue sample_host optional_newsletter "newsletter"
      {[ "field.nick" := ["al"] ]} w_init
    = (Ret (optional_newsletter, None),
       {| ticks := 0;
          trace := [Printf "[DEBUG] Empty field.%s" [VStr "newsletter"]] |}).
Proof.
  assert (generateCode optional_newsletter ≠ GenerateCodeTimestamp) as Hg
    by (by vm_compute).
  split; [exact Hg|]. split; [reflexivity|]. split; [reflexivity|].
  assert (values_index ({[ "field.nick" := ["al"] ]}
                          : gmap string (list string))
            ("field." +:+ "newsletter") = []) as Hv
    by (vm_compute; reflexivity).
  exact (optional_absent_field_unchanged sample_host optional_newsletter
           "newsletter" {[ "field.nick" := ["al"] ]} w_init
           Hg eq_refl eq_refl Hv).
Defined.

Lemma last_submitted_value_wins_witness :
  ∃ f' err w',
    fetchValue sample_host optional_newsletter "newsletter"
      {[ "field.newsletter" := ["true"; "notabool"] ]} w_init
    = (Ret (f', err), w')
    ∧ err = Some (Errorf
        "cannot parse field field.newsletter to boolean (value is [true notabool])").
Proof.
  assert (({[ "field.newsletter" := ["true"; "notabool"] ]}
             : gmap string (list string)) !! ("field." +:+ "newsletter")
          = Some ["true"; "notabool"]) as Hv by (vm_compute; reflexivity).
  destruct (last_submitted_value_wins sample_host "/signup" "newsletter"
              {| Internal := false; Value := VNil; Type_ := "bool";
                 typeCode := 0; Generate := ""; generateCode := 0;
                 Required := false; Format := "" |} None
              {[ "field.newsletter" := ["true"; "notabool"] ]} w_init
              ["true"; "notabool"] "notabool" eq_refl Hv eq_refl)
    as (f' & err & w' & Hrun & _ & Hbool).
  exists f', err, w'. split; [exact Hrun|]. exact (Hbool eq_refl).
Defined.

(** ** Schema compilation *)

Lemma parseField_fst endpoint fName f err :
  (parseField endpoint fName f err).1 = (parseField endpoint fName f None).1.
Proof. unfold parseField. repeat (case_bool_decide; simpl); done. Qed.

Lemma parseField_err endpoint fName f (l : list string) :
  (parseField endpoint fName f (ErrorOrNil l)).2 =
    ErrorOrNil (l ++ (defect_message <$> field_defects endpoint fName f)).
Proof.
  unfold parseField, field_defects. split_membership.
  repeat (case_bool_decide; simpl);
    rewrite ?append_error_ErrorOrNil, ?app_nil_r, <-?(assoc_L (++)); done.
Qed.

Lemma parseField_Format endpoint fName f err :
  Format (parseField endpoint fName f err).1 =
    if bool_decide (Generate f = "timestamp") && bool_decide (Format f = "")
    then DefaultTimestampFormat else Format f.
Proof.
  unfold parseField.
  repeat (case_bool_decide; simpl); try done; congruence.
Qed.

Lemma parseField_generateCode endpoint fName f err :
  generateCode (parseField endpoint fName f err).1 =
    if bool_decide (Generate f = "timestamp") then GenerateCodeTimestamp
    else generateCode f.
Proof.
  unfold parseField.
  repeat (case_bool_decide; simpl); try done; congruence.
Qed.

Lemma parseFields_fold endpoint (kvs : list (string * ConfigField)) :
  ∀ (m : gmap string ConfigField) (l : list string),
    NoDup kvs.*1 →
    ∃ m',
      foldl (λ '(fields, err) '(fName, f),
               let '(f, err) := parseField endpoint fName f err in
               (<[fName := f]> fields, err))
            (m, ErrorOrNil l) kvs
      = (m', ErrorOrNil (l ++ (defect_message <$>
               ('(fName, f) ← kvs; field_defects endpoint fName f))))
      ∧ (∀ k, k ∉ kvs.*1 → m' !! k = m !! k)
      ∧ (∀ k f, (k, f) ∈ kvs →
           m' !! k = Some (parseField endpoint k f None).1).
Proof.
  induction kvs as [|[k0 f0] kvs IH]; intros m l Hnd.
  { exists m. simpl. rewrite app_nil_r. split_and!; [done..|].
    by intros ?? ?%elem_of_nil. }
  rewrite fmap_cons in Hnd. apply NoDup_cons in Hnd as [Hk0 Hnd].
  simpl in Hk0. rewrite bind_cons, fmap_app. cbn [foldl].
  destruct (parseField endpoint k0 f0 (ErrorOrNil l)) as [f0' err0] eqn:Hpf.
  pose proof (parseField_err endpoint k0 f0 l) as Herr.
  pose proof (parseField_fst endpoint k0 f0 (ErrorOrNil l)) as Hfst.
  rewrite Hpf in Herr, Hfst. simpl in Herr, Hfst. subst err0 f0'.
  destruct (IH (<[k0 := (parseField endpoint k0 f0 None).1]> m)
              (l ++ (defect_message <$> field_defects endpoint k0 f0)) Hnd)
    as (m' & Hfold & Hout & Hin).
  exists m'. split_and!.
  - rewrite Hfold. by rewrite (assoc_L (++)).
  - intros k Hk. rewrite fmap_cons in Hk.
    apply not_elem_of_cons in Hk as [Hne Hk]. simpl in Hne.
    rewrite (Hout k Hk). by apply lookup_insert_ne.
  - intros k f [[= -> ->]|Hkf]%elem_of_cons.
    + rewrite (Hout k0 Hk0). apply lookup_insert_eq.
    + by apply Hin.
Qed.

Lemma parseFields_spec endpoint (fields : gmap string ConfigField)
    (l : list string) :
  ∃ fields',
    parseFields endpoint fields (ErrorOrNil l)
    = (fields', ErrorOrNil (l ++ (defect_message <$>
         ('(fName, f) ← map_to_list fields; field_defects endpoint fName f))))
    ∧ ∀ k, fields' !! k
           = (λ f, (parseField endpoint k f None).1) <$> fields !! k.
Proof.
  destruct (parseFields_fold endpoint (map_to_list fields) fields l
              (NoDup_fst_map_to_list fields)) as (m' & Hfold & Hout & Hin).
  exists m'. split; [exact Hfold|].
  intros k. destruct (fields !! k) as [f|] eqn:Hk; simpl.
  - apply Hin. by apply elem_of_map_to_list.
  - rewrite Hout; [done|].
    intros ([k' f] & -> & Hkf%elem_of_map_to_list)%list_elem_of_fmap.
    simpl in Hk. congruence.
Qed.

Lemma parseCreateFile_fst host endpoint cf err :
  (parseCreateFile host endpoint cf err).1
  = (parseCreateFile host endpoint cf None).1.
Proof.
  unfold parseCreateFile.
  destruct (template_Parse host (Name cf)); simpl;
    repeat (case_bool_decide; simpl); done.
Qed.

Lemma parseCreateFile_err host endpoint cf (l : list string) :
  (parseCreateFile host endpoint cf (ErrorOrNil l)).2 =
    ErrorOrNil (l ++ (defect_message <$> file_defects host endpoint cf)).
Proof.
  unfold parseCreateFile, file_defects. split_membership.
  destruct (template_Parse host (Name cf)); simpl;
    repeat (case_bool_decide; simpl);
    rewrite ?append_error_ErrorOrNil, ?app_nil_r, <-?(assoc_L (++)); done.
Qed.

(** What [Parse] leaves in a file specification without defects. *)
Lemma parseCreateFile_compiled host endpoint cf :
  file_defects host endpoint cf = [] →
  nameTemplate (parseCreateFile host endpoint cf None).1
    = Some {| tmpl_name := "create_file.name"; tmpl_text := Some (Name cf) |}
  ∧ formatCode (parseCreateFile host endpoint cf None).1 = FormatCodeYAML.
Proof.
  unfold parseCreateFile, file_defects. split_membership.
  destruct (template_Parse host (Name cf)); simpl; [done|].
  repeat (case_bool_decide; simpl); done.
Qed.

Lemma parseRoute_spec host endpoint r (l : list string) :
  ∃ fields',
    parseRoute host endpoint r (ErrorOrNil l)
    = ({| Fields := fields';
          CreateFile := (λ cf, (parseCreateFile host endpoint cf None).1)
                          <$> CreateFile r |},
       ErrorOrNil (l ++ (defect_message <$> route_defects host endpoint r)))
    ∧ ∀ k, fields' !! k
           = (λ f, (parseField endpoint k f None).1) <$> Fields r !! k.
Proof.
  destruct (parseFields_spec endpoint (Fields r) l) as (fields' & Hpf & Hlk).
  exists fields'. split; [|exact Hlk].
  unfold parseRoute, route_defects, set_CreateFile, set_Fields.
  rewrite Hpf. simpl.
  destruct (CreateFile r) as [cf|]; simpl.
  - destruct (parseCreateFile host endpoint cf _) as [cf' err'] eqn:Hcf.
    pose proof (parseCreateFile_err host endpoint cf
      (l ++ (defect_message <$>
         ('(fName, f) ← map_to_list (Fields r);
          field_defects endpoint fName f)))) as Herr.
    pose proof (parseCreateFile_fst host endpoint cf
      (ErrorOrNil (l ++ (defect_message <$>
         ('(fName, f) ← map_to_list (Fields r);
          field_defects endpoint fName f))))) as Hfst.
    rewrite Hcf in Herr, Hfst. simpl in Herr, Hfst. subst cf' err'.
    by rewrite fmap_app, (assoc_L (++)).
  - by rewrite app_nil_r.
Qed.

Lemma parseRoutes_spec host (kvs : list (string * option ConfigReceive)) :
  ∀ (m : gmap string (option ConfigReceive)) (l : list string),
    NoDup kvs.*1 →
    (∀ k, (k, None) ∉ kvs) →
    ∃ m',
      parseRoutes host kvs m (ErrorOrNil l)
      = Ret (m', ErrorOrNil (l ++ (defect_message <$>
               ('(endpoint, r) ← kvs;
                from_option (route_defects host endpoint) [] r))))
      ∧ (∀ k, k ∉ kvs.*1 → m' !! k = m !! k)
      ∧ (∀ k r, (k, Some r) ∈ kvs →
           ∃ r', m' !! k = Some (Some r') ∧ compiled_route host k r r').
Proof.
  induction kvs as [|[k0 [r0|]] kvs IH]; intros m l Hnd Hnil.
  { exists m. simpl. rewrite app_nil_r. split_and!; [done..|].
    by intros ?? ?%elem_of_nil. }
  2:{ exfalso. apply (Hnil k0). apply elem_of_cons. by left. }
  rewrite fmap_cons in Hnd. apply NoDup_cons in Hnd as [Hk0 Hnd].
  simpl in Hk0. rewrite bind_cons, fmap_app. cbn [parseRoutes from_option].
  destruct (parseRoute_spec host k0 r0 l) as (fields' & -> & Hfields).
  destruct (IH (<[k0 := Some {| Fields := fields';
                   CreateFile := (λ cf, (parseCreateFile host k0 cf None).1)
                                   <$> CreateFile r0 |}]> m)
              (l ++ (defect_message <$> route_defects host k0 r0)) Hnd)
    as (m' & Hfold & Hout & Hin).
  { intros k Hk. apply (Hnil k). apply elem_of_cons. by right. }
  exists m'. split_and!.
  - rewrite Hfold. by rewrite (assoc_L (++)).
  - intros k Hk. rewrite fmap_cons in Hk.
    apply not_elem_of_cons in Hk as [Hne Hk]. simpl in Hne.
    rewrite (Hout k Hk). by apply lookup_insert_ne.
  - intros k r [[= -> ->]|Hkr]%elem_of_cons.
    + eexists. split.
      * rewrite (Hout k0 Hk0). apply lookup_insert_eq.
      * by split.
    + by apply Hin.
Qed.

Lemma parseRoutes_returns host (kvs : list (string * option ConfigReceive)) :
  ∀ m err res, parseRoutes host kvs m err = Ret res → ∀ k, (k, None) ∉ kvs.
Proof.
  induction kvs as [|[k0 [r0|]] kvs IH]; intros m err res Hres k.
  - apply not_elem_of_nil.
  - simpl in Hres. destruct (parseRoute host k0 r0 err) as [r' err'].
    apply not_elem_of_cons. split; [congruence|]. by eapply IH.
  - discriminate Hres.
Qed.

(** What [Parse] returns for a decoded schema without null routes: the
    entries of its error are the messages of the defects, and each route is
    compiled. *)
Lemma Parse_spec host c0 data c :
  yaml_Unmarshal host data c0 = (c, None) →
  routes_present c →
  ∃ c',
    Parse host c0 data
    = Ret (c', ErrorOrNil (defect_message <$> defects host c))
    ∧ ∀ k r', Receive c' !! k = Some (Some r') →
        ∃ r, Receive c !! k = Some (Some r) ∧ compiled_route host k r r'.
Proof.
  intros Hu Hpresent. unfold Parse. rewrite Hu.
  destruct (parseRoutes_spec host (map_to_list (Receive c)) (Receive c) []
              (NoDup_fst_map_to_list _)) as (m' & Hrun & Hout & Hin).
  { intros k Hk%elem_of_map_to_list. by apply (Hpresent k). }
  change (ErrorOrNil []) with (@None error) in Hrun. rewrite Hrun.
  eexists. split; [done|]. simpl.
  intros k r' Hk.
  destruct (Receive c !! k) as [[r|]|] eqn:Hck.
  - destruct (Hin k r) as (r'' & Hk' & Hcomp);
      [by apply elem_of_map_to_list|].
    exists r. split; [done|]. congruence.
  - by destruct (Hpresent k).
  - rewrite Hout in Hk; [congruence|].
    intros ([k' x] & -> & Hkx%elem_of_map_to_list)%list_elem_of_fmap.
    simpl in Hck. congruence.
Qed.

Lemma Parse_returns_present host c0 data c res :
  yaml_Unmarshal host data c0 = (c, None) →
  Parse host c0 data = Ret res →
  routes_present c.
Proof.
  unfold Parse. intros -> Hres k Hk.
  destruct (parseRoutes host _ _ _) as [res'|] eqn:Hrun; [|done].
  by apply (parseRoutes_returns _ _ _ _ _ Hrun k), elem_of_map_to_list.
Qed.


(** C8: in a schema that compiled, a field declared with
    [generate: timestamp] and no format has the fixed numeric layout as its
    format, and every field that generates a timestamp has a format that is
    not empty, so that [generateTimestamp] renders with that format and
    never with RFC 3339. *)
Theorem compiled_timestamp_has_format host c0 data c c' endpoint r' fName f' :
  yaml_Unmarshal host data c0 = (c, None) →
  undecoded_codes_zero c →
  Parse host c0 data = Ret (c', None) →
  Receive c' !! endpoint = Some (Some r') →
  Fields r' !! fName = Some f' →
  ∃ r f,
    Receive c !! endpoint = Some (Some r) ∧ Fields r !! fName = Some f
    ∧ (Generate f = "timestamp" → Format f = "" →
         generateCode f' = GenerateCodeTimestamp
         ∧ Format f' = DefaultTimestampFormat)
    ∧ (generateCode f' = GenerateCodeTimestamp →
         Format f' ≠ ""
         ∧ ∀ w, generateTimestamp host (Format f') w
                = (Ret (time_Format host (clock host (ticks w)) (Format f')),
                   {| ticks := S (ticks w); trace := trace w |})).
Proof.
  intros Hu Hzero Hparse Hr' Hf'.
  pose proof (Parse_returns_present _ _ _ _ _ Hu Hparse) as Hpresent.
  destruct (Parse_spec host c0 data c Hu Hpresent) as (c'' & Hparse' & Hroutes).
  rewrite Hparse in Hparse'. injection Hparse' as <- _.
  destruct (Hroutes endpoint r' Hr') as (r & Hr & Hfields & _).
  rewrite Hfields in Hf'.
  destruct (Fields r !! fName) as [f|] eqn:Hf; [|done].
  injection Hf' as <-.
  exists r, f. split_and!; [done..| |].
  - intros Hgen Hfmt.
    rewrite parseField_generateCode, parseField_Format.
    by rewrite !bool_decide_true.
  - rewrite parseField_generateCode, parseField_Format.
    pose proof (Hzero endpoint r fName f Hr Hf) as Hcode.
    intros Hcode'. case_bool_decide as Hgen; [|by rewrite Hcode in Hcode'].
    simpl.
    assert ((if bool_decide (Format f = "")
             then DefaultTimestampFormat else Format f) ≠ "") as Hne
      by (by case_bool_decide).
    split; [done|]. intros w.
    rewrite generateTimestamp_eq. by rewrite bool_decide_false.
Qed.

(** Checks of the two conditions on a decoded schema that run. *)
Lemma routes_present_check c :
  Forall (λ kr, is_Some kr.2) (map_to_list (Receive c)) → routes_present c.
Proof.
  intros Hall k Hk. apply elem_of_map_to_list in Hk.
  rewrite Forall_forall in Hall. by destruct (Hall _ Hk) as [? [=]].
Qed.

Lemma undecoded_codes_zero_check c :
  Forall (λ kr, from_option
            (λ r, Forall (λ kf, generateCode kf.2 = 0) (map_to_list (Fields r)))
            True kr.2)
         (map_to_list (Receive c)) →
  undecoded_codes_zero c.
Proof.
  intros Hall k r fName f Hr%elem_of_map_to_list Hf%elem_of_map_to_list.
  rewrite Forall_forall in Hall. specialize (Hall _ Hr). simpl in Hall.
  rewrite Forall_forall in Hall. exact (Hall _ Hf).
Qed.


Lemma compiled_timestamp_has_format_witness :
  ∃ r f,
    Receive sample_schema !! "/signup" = Some (Some r)
    ∧ Fields r !! "joined_at" = Some f
    ∧ (Generate f = "timestamp" → Format f = "" →
         generateCode compiled_joined_at = GenerateCodeTimestamp
         ∧ Format compiled_joined_at = DefaultTimestampFormat)
    ∧ (generateCode compiled_joined_at = GenerateCodeTimestamp →
         Format compiled_joined_at ≠ ""
         ∧ ∀ w, generateTimestamp sample_host (Format compiled_joined_at) w
                = (Ret (time_Format sample_host (clock sample_host (ticks w))
                          (Format compiled_joined_at)),
                   {| ticks := S (ticks w); trace := trace w |})).
Proof.
  apply (compiled_timestamp_has_format sample_host zeroConfig sample_document
           sample_schema compiled_schema "/signup" compiled_signup).
  - vm_compute. reflexivity.
  - apply undecoded_codes_zero_check. vm_compute. repeat constructor.
  - vm_compute. reflexivity.
  - vm_compute. reflexivity.
  - vm_compute. reflexivity.
Defined.

(** The entries of the error for the schema with five defects. *)
Example Parse_broken_schema :
  ∃ c', Parse sample_host zeroConfig broken_document
        = Ret (c', Some (Multi
            [ "receive[/a].fields.x.generate unexpected uuid, expected "
                +:+ DQ +:+ "timestamp" +:+ DQ;
              "receive[/a].fields.x.type unexpected type int, expected "
                +:+ DQ +:+ "string" +:+ DQ +:+ " or " +:+ DQ +:+ "bool" +:+ DQ;
              "receive[/a].create_file.name template error, template: create_file.name:1: unclosed action";
              "receive[/a].create_file.format unexpected format json, expected "
                +:+ DQ +:+ "yaml" +:+ DQ;
              "receive[/b].fields.y.type unexpected type float, expected "
                +:+ DQ +:+ "string" +:+ DQ +:+ " or " +:+ DQ +:+ "bool" +:+ DQ ])).
Proof. eexists. vm_compute. reflexivity. Qed.

(** ** Dispatch *)

Lemma bind_run {A B} (m : M A) (k : A → M B) w :
  (m ≫= k) w = match m w with
               | (Ret a, w') => k a w'
               | (Panic msg, w') => (Panic msg, w')
               end.
Proof. reflexivity. Qed.

Lemma fetchValue_run host f name values w :
  ∃ f' n logs,
    fetchValue host f name values w =
      (Ret (f', fetchError host f name values),
       {| ticks := ticks w + n; trace := trace w ++ logs |})
    ∧ forallb is_Printf logs = true.
Proof.
  destruct (fetchValue_returns host f name values w)
    as (f' & err & n & logs & Hrun & Hlogs).
  destruct (fetchValue_error host f name values w) as (f'' & w' & Hrun').
  exists f', n, logs. split; [|done]. congruence.
Qed.

Lemma fetchError_Plain host f name values e :
  fetchError host f name values = Some e → ∃ m, e = Plain m.
Proof.
  unfold fetchError, fetchValue. unfold_M.
  case_bool_decide; rewrite ?generateTimestamp_eq; simpl;
    destruct (Internal f); simpl;
    repeat (case_bool_decide; simpl);
    try destruct (Required f); try destruct (ParseBool _); simpl;
    intros [= <-]; by eexists.
Qed.

(** A required field that is neither internal nor submitted fails, and
    the message says which field. *)
Lemma fetchError_required host f name values :
  Internal f = false →
  Required f = true →
  values_index values ("field." +:+ name) = [] →
  fetchError host f name values
  = Some (Errorf ("required field field." +:+ name +:+ " not set")).
Proof.
  intros Hint Hreq Hv. unfold fetchError, fetchValue. unfold_M.
  case_bool_decide; rewrite ?generateTimestamp_eq; simpl;
    by rewrite Hint, Hv, Hreq.
Qed.

Lemma resolveField_run host form (l : list string)
    (m : gmap string ConfigField) k f w :
  ∃ f' n logs,
    resolveField host form (ErrorOrNil l, m) (k, f) w
    = (Ret (ErrorOrNil (l ++ from_option entries [] (fetchError host f k form)),
            <[k := f']> m),
       {| ticks := ticks w + n; trace := trace w ++ logs |})
    ∧ forallb is_Printf logs = true.
Proof.
  destruct (fetchValue_run host f k form w) as (f' & n & logs & Hrun & Hlogs).
  exists f', n, logs. split; [|done].
  unfold resolveField. rewrite bind_run, Hrun. unfold_M.
  destruct (fetchError host f k form); simpl.
  - by rewrite append_error_ErrorOrNil.
  - by rewrite app_nil_r.
Qed.

Lemma resolveFields_fold host form (kvs : list (string * ConfigField)) :
  ∀ (m : gmap string ConfigField) (l : list string) w,
    ∃ m' n logs,
      foldM (resolveField host form) (ErrorOrNil l, m) kvs w
      = (Ret (ErrorOrNil (l ++ ('(name, f) ← kvs;
                 from_option entries [] (fetchError host f name form))), m'),
         {| ticks := ticks w + n; trace := trace w ++ logs |})
      ∧ forallb is_Printf logs = true
      ∧ ∀ k, is_Some (m !! k) ∨ k ∈ kvs.*1 → is_Some (m' !! k).
Proof.
  induction kvs as [|[k0 f0] kvs IH]; intros m l w.
  { exists m, 0%nat, []. simpl. rewrite !app_nil_r, Nat.add_0_r.
    destruct w. split_and!; [done..|].
    intros k [?|?%elem_of_nil]; done. }
  rewrite bind_cons. cbn [foldM]. rewrite bind_run.
  destruct (resolveField_run host form l m k0 f0 w)
    as (f0' & n0 & logs0 & -> & Hlogs0).
  destruct (IH (<[k0 := f0']> m)
              (l ++ from_option entries [] (fetchError host f0 k0 form))
              {| ticks := ticks w + n0; trace := trace w ++ logs0 |})
    as (m' & n & logs & -> & Hlogs & Hdom).
  exists m', (n0 + n)%nat, (logs0 ++ logs).
  split_and!.
  - simpl. by rewrite !(assoc_L (++)), Nat.add_assoc.
  - rewrite forallb_app. by rewrite Hlogs0, Hlogs.
  - intros k Hk. apply Hdom. rewrite fmap_cons in Hk. simpl in Hk.
    destruct (decide (k = k0)) as [->|Hne].
    + left. rewrite lookup_insert_eq. by eexists.
    + rewrite lookup_insert_ne by done.
      destruct Hk as [?|[?|?]%elem_of_cons]; [by left|done|by right].
Qed.

(** The loop over the fields of a route resolves every one of them and
    aggregates the errors of all that fail; it only logs and reads the
    clock. *)
Lemma resolveFields_run host c form w :
  ∃ fields n logs,
    resolveFields host c form None w
    = (Ret (ErrorOrNil (request_errors host c form), fields),
       {| ticks := ticks w + n; trace := trace w ++ logs |})
    ∧ forallb is_Printf logs = true
    ∧ ∀ k, is_Some (Fields c !! k) → is_Some (fields !! k).
Proof.
  destruct (resolveFields_fold host form (map_to_list (Fields c)) ∅ [] w)
    as (m' & n & logs & Hrun & Hlogs & Hdom).
  exists m', n, logs. split_and!; [exact Hrun|done|].
  intros k [f Hk]. apply Hdom. right.
  apply list_elem_of_fmap. exists (k, f). split; [done|].
  by apply elem_of_map_to_list.
Qed.

Lemma request_errors_elem host c form name f e :
  Fields c !! name = Some f →
  fetchError host f name form = Some e →
  Error e ∈ request_errors host c form.
Proof.
  intros Hf He. destruct (fetchError_Plain _ _ _ _ _ He) as [m ->].
  unfold request_errors. apply list_elem_of_bind.
  exists (name, f). split; [|by apply elem_of_map_to_list].
  rewrite He. simpl. apply list_elem_of_singleton. done.
Qed.

Lemma form_parsed_no_error r :
  form_parsed r →
  match ParseMultipartForm r with
  | Some ErrNotMultipart => ParseForm r
  | Some (FormError m) => Some m
  | None => None
  end = None.
Proof. by intros [->|[-> ->]]. Qed.

(** A request with a failing field is answered with the aggregated
    message and status 400, after logging only. *)
Lemma ServeHTTP_rejects host c r w :
  form_parsed r →
  request_errors host c (Form r) ≠ [] →
  ∃ n logs,
    ConfigReceive_ServeHTTP host c r w
    = (Ret tt,
       {| ticks := ticks w + n;
          trace := trace w ++ logs
                   ++ [HttpError (ListFormatFunc (request_errors host c (Form r)))
                                 StatusBadRequest] |})
    ∧ forallb is_Printf logs = true.
Proof.
  intros Hform Hne.
  destruct (resolveFields_run host c (Form r) w)
    as (fields & n & logs & Hrun & Hlogs & _).
  exists n, logs. split; [|done].
  unfold ConfigReceive_ServeHTTP.
  rewrite (form_parsed_no_error r Hform), bind_run, Hrun.
  destruct (request_errors host c (Form r)) as [|e1 es] eqn:Hes; [done|].
  unfold_M. simpl. by rewrite (assoc_L (++)).
Qed.

(** C4: when a field of the route fails to resolve, the request is
    answered with status 400 and the message of the aggregated error.  The
    error has an entry for every failing field, so no failure stopped the
    loop; apart from the answer the handler only logged, so no directory
    and no file was created. *)
Theorem failed_field_rejects_request host c r w :
  form_parsed r →
  (∃ name f, Fields c !! name = Some f
             ∧ fetchError host f name (Form r) ≠ None) →
  ∃ n logs,
    ConfigReceive_ServeHTTP host c r w
    = (Ret tt,
       {| ticks := ticks w + n;
          trace := trace w ++ logs
                   ++ [HttpError (ListFormatFunc (request_errors host c (Form r)))
                                 StatusBadRequest] |})
    ∧ forallb is_Printf logs = true
    ∧ ∀ name f e,
        Fields c !! name = Some f →
        fetchError host f name (Form r) = Some e →
        Error e ∈ request_errors host c (Form r).
Proof.
  intros Hform (name & f & Hf & Hfail).
  destruct (fetchError host f name (Form r)) as [e|] eqn:He; [|done].
  pose proof (request_errors_elem host c (Form r) name f e Hf He) as Hin.
  destruct (ServeHTTP_rejects host c r w Hform) as (n & logs & Hrun & Hlogs).
  { intros Hnil. rewrite Hnil in Hin. by apply elem_of_nil in Hin. }
  exists n, logs. split_and!; [done..|].
  intros name' f' e'. apply request_errors_elem.
Qed.

(** C6: a required field that is not internal, not generated and not
    submitted makes the request fail with status 400, and the message
    contains the name of the field. *)
Theorem missing_required_field_is_named host c r w name f :
  form_parsed r →
  Fields c !! name = Some f →
  Required f = true →
  Internal f = false →
  generateCode f ≠ GenerateCodeTimestamp →
  values_index (Form r) ("field." +:+ name) = [] →
  ∃ n logs msg,
    ConfigReceive_ServeHTTP host c r w
    = (Ret tt,
       {| ticks := ticks w + n;
          trace := trace w ++ logs ++ [HttpError msg StatusBadRequest] |})
    ∧ forallb is_Printf logs = true
    ∧ contains msg ("required field field." +:+ name +:+ " not set")
    ∧ contains msg name.
Proof.
  intros Hform Hf Hreq Hint _ Hv.
  pose proof (fetchError_required host f name (Form r) Hint Hreq Hv) as He.
  pose proof (request_errors_elem host c (Form r) name f _ Hf He) as Hin.
  destruct (ServeHTTP_rejects host c r w Hform) as (n & logs & Hrun & Hlogs).
  { intros Hnil. rewrite Hnil in Hin. by apply elem_of_nil in Hin. }
  exists n, logs, (ListFormatFunc (request_errors host c (Form r))).
  apply ListFormatFunc_contains in Hin. simpl in Hin.
  split_and!; [done..|].
  eapply contains_trans; [exact Hin|].
  apply contains_app_l, contains_app_r, contains_refl.
Qed.

(** ** File materialization *)

(** C9: whenever the path template renders, the one directory that
    [Perform] creates is [path.Base] of the rendered path, with mode 0755,
    and it is created before the file; no other directory is created. *)
Theorem Perform_creates_base_name_directory host c p w rc t fileName :
  CreateFile (p_ConfigReceive p) = Some rc →
  nameTemplate rc = Some t →
  template_Clone host t = None →
  template_Execute host t (fieldMap p) p = (fileName, None) →
  ∃ o w' rest,
    Perform host c p w = (o, w')
    ∧ trace w' = trace w
                 ++ [Printf "[DEBUG] Create file %v" [VStr fileName];
                     MkdirAll (path_Base fileName) 493]
                 ++ rest
    ∧ (∀ dir perm, MkdirAll dir perm ∉ rest)
    ∧ (os_error host
         (trace w ++ [Printf "[DEBUG] Create file %v" [VStr fileName]])
         (MkdirAll (path_Base fileName) 493) = None →
       ∃ rest', rest = Create fileName :: rest').
Proof.
  intros Hrc Ht Hclone Hexec. unfold Perform.
  rewrite Hrc, Ht, Hclone, Hexec. unfold_M. simpl.
  destruct (os_error host _ (MkdirAll _ _)) as [e1|]; simpl.
  { eexists _, _, [_; _]. split_and!; [done| |..|done].
    - simpl. by rewrite <-!(assoc_L (++)).
    - intros dir perm Hin. by repeat apply elem_of_cons in Hin as [?|Hin];
        try apply elem_of_nil in Hin. }
  destruct (os_error host _ (Create _)) as [e2|]; simpl.
  { eexists _, _, [_; _; _]. split_and!; [done| |..|by eexists].
    - simpl. by rewrite <-!(assoc_L (++)).
    - intros dir perm Hin. by repeat apply elem_of_cons in Hin as [?|Hin];
        try apply elem_of_nil in Hin. }
  case_bool_decide; simpl; [destruct (os_error host _ (Encode _ _)); simpl|].
  - eexists _, _, [_; _; _; _; _]. split_and!; [done| |..|by eexists].
    + simpl. by rewrite <-!(assoc_L (++)).
    + intros dir perm Hin. by repeat apply elem_of_cons in Hin as [?|Hin];
        try apply elem_of_nil in Hin.
  - eexists _, _, [_; _; _]. split_and!; [done| |..|by eexists].
    + simpl. by rewrite <-!(assoc_L (++)).
    + intros dir perm Hin. by repeat apply elem_of_cons in Hin as [?|Hin];
        try apply elem_of_nil in Hin.
  - eexists _, _, [_; _]. split_and!; [done| |..|by eexists].
    + simpl. by rewrite <-!(assoc_L (++)).
    + intros dir perm Hin. by repeat apply elem_of_cons in Hin as [?|Hin];
        try apply elem_of_nil in Hin.
Qed.

Lemma Perform_returns host c p w rc t :
  CreateFile (p_ConfigReceive p) = Some rc →
  nameTemplate rc = Some t →
  formatCode c = FormatCodeYAML →
  ∃ w', Perform host c p w = (Ret tt, w').
Proof.
  intros Hrc Ht Hcode. unfold Perform. rewrite Hrc, Ht. unfold_M.
  rewrite (bool_decide_true _ Hcode).
  destruct (template_Clone host t); [by eexists|].
  destruct (template_Execute host t (fieldMap p) p) as [fileName [e|]];
    [by eexists|].
  simpl. destruct (os_error host _ (MkdirAll _ _)); [by eexists|].
  simpl. destruct (os_error host _ (Create _)); [by eexists|].
  simpl. destruct (os_error host _ (Encode _ _)); by eexists.
Qed.

(** The file specification of a route of a schema without defects. *)
Lemma defects_nil_file host c k r cf :
  defects host c = [] →
  Receive c !! k = Some (Some r) →
  CreateFile r = Some cf →
  file_defects host k cf = [].
Proof.
  intros Hnil Hr Hcf.
  destruct (file_defects host k cf) as [|d ds] eqn:Hfd; [done|].
  assert (d ∈ defects host c) as Hd; [|by rewrite Hnil in Hd; apply elem_of_nil in Hd].
  unfold defects. apply list_elem_of_bind.
  exists (k, Some r). split; [|by apply elem_of_map_to_list].
  simpl. unfold route_defects. rewrite Hcf. simpl. rewrite Hfd.
  apply elem_of_app. right. apply elem_of_cons. by left.
Qed.

(** In a schema that compiled, the file specification of a route has its
    template and the code of its format. *)
Lemma Parse_ok_decoded host c0 data c' :
  Parse host c0 data = Ret (c', None) →
  ∃ c, yaml_Unmarshal host data c0 = (c, None).
Proof.
  unfold Parse. destruct (yaml_Unmarshal host data c0) as [c [m|]]; [done|].
  by eexists.
Qed.

Lemma Parse_ok_file host c0 data c' k r' cf' :
  Parse host c0 data = Ret (c', None) →
  Receive c' !! k = Some (Some r') →
  CreateFile r' = Some cf' →
  (∃ t, nameTemplate cf' = Some t) ∧ formatCode cf' = FormatCodeYAML.
Proof.
  intros Hparse Hr' Hcf'.
  destruct (Parse_ok_decoded host c0 data c' Hparse) as [c Hu].
  pose proof (Parse_returns_present _ _ _ _ _ Hu Hparse) as Hpresent.
  destruct (Parse_spec host c0 data c Hu Hpresent) as (c'' & Hparse' & Hroutes).
  rewrite Hparse in Hparse'. injection Hparse' as <- Herr.
  symmetry in Herr. apply ErrorOrNil_None, fmap_nil_inv in Herr.
  destruct (Hroutes k r' Hr') as (r & Hr & _ & Hfile).
  rewrite Hcf' in Hfile.
  destruct (CreateFile r) as [cf|] eqn:Hcf; [|done].
  injection Hfile as ->.
  destruct (parseCreateFile_compiled host k cf
              (defects_nil_file host c k r cf Herr Hr Hcf)) as [Ht Hcode].
  split; [by eexists|done].
Qed.

Lemma redirect_run r w :
  (let cb := values_Get (Form r) "callback" in
   if bool_decide (cb ≠ "")
   then http_Redirect cb StatusSeeOther
   else http_Redirect (Referer r) StatusSeeOther) w
  = (Ret tt, {| ticks := ticks w;
                trace := trace w ++ [Redirect (redirect_target r)
                                              StatusSeeOther] |}).
Proof.
  unfold redirect_target, values_Get.
  destruct (values_index (Form r) "callback") as [|cb ?]; [reflexivity|].
  destruct (decide (cb = "")) as [->|Hne]; [reflexivity|].
  by rewrite bool_decide_true, (bool_decide_false (cb = "")).
Qed.

(** C10: on a route with a file specification of a schema that compiled,
    when every field resolves, the dispatcher runs [Perform] and then
    answers with the redirect, to the callback when the form has one and to
    the referrer otherwise.  The redirect is appended to whatever [Perform]
    left behind, so it also follows a status 500 that [Perform] has already
    sent. *)
Theorem redirect_follows_materialization
    host c0 data cfg endpoint c cf r w :
  Parse host c0 data = Ret (cfg, None) →
  Receive cfg !! endpoint = Some (Some c) →
  CreateFile c = Some cf →
  form_parsed r →
  request_errors host c (Form r) = [] →
  ∃ fields w1 w2,
    resolveFields host c (Form r) None w = (Ret (None, fields), w1)
    ∧ Perform host cf {| p_ConfigReceive := c; p_Fields := fields |} w1
      = (Ret tt, w2)
    ∧ ConfigReceive_ServeHTTP host c r w
      = (Ret tt,
         {| ticks := ticks w2;
            trace := trace w2 ++ [Redirect (redirect_target r)
                                           StatusSeeOther] |}).
Proof.
  intros Hparse Hc Hcf Hform Hok.
  destruct (Parse_ok_file host c0 data cfg endpoint c cf
              Hparse Hc Hcf) as [[t Ht] Hcode].
  destruct (resolveFields_run host c (Form r) w)
    as (fields & n & logs & Hrun & _ & _).
  rewrite Hok in Hrun. simpl in Hrun.
  destruct (Perform_returns host cf
              {| p_ConfigReceive := c; p_Fields := fields |}
              {| ticks := ticks w + n; trace := trace w ++ logs |}
              cf t Hcf Ht Hcode) as [w2 Hperform].
  eexists fields, _, w2. split_and!; [exact Hrun|exact Hperform|].
  unfold ConfigReceive_ServeHTTP.
  rewrite (form_parsed_no_error r Hform), bind_run, Hrun, Hcf.
  rewrite bind_run, Hperform. apply redirect_run.
Qed.

(** ** The properties on the route [/signup] *)

Lemma failed_field_rejects_request_witness :
  ∃ n logs,
    ConfigReceive_ServeHTTP sample_host compiled_signup
      (sample_post nameless_form) w_init
    = (Ret tt,
       {| ticks := ticks w_init + n;
          trace := trace w_init ++ logs
                   ++ [HttpError
                         (ListFormatFunc
                            (request_errors sample_host compiled_signup
                               (Form (sample_post nameless_form))))
                         StatusBadRequest] |})
    ∧ forallb is_Printf logs = true
    ∧ ∀ name f e,
        Fields compiled_signup !! name = Some f →
        fetchError sample_host f name (Form (sample_post nameless_form))
        = Some e →
        Error e ∈ request_errors sample_host compiled_signup
                    (Form (sample_post nameless_form)).
Proof.
  apply (failed_field_rejects_request sample_host compiled_signup
           (sample_post nameless_form) w_init).
  - right. split; reflexivity.
  - exists "name", compiled_name. split.
    + vm_compute. reflexivity.
    + vm_compute. discriminate.
Defined.

Lemma missing_required_field_is_named_witness :
  ∃ n logs msg,
    ConfigReceive_ServeHTTP sample_host compiled_signup
      (sample_post nameless_form) w_init
    = (Ret tt,
       {| ticks := ticks w_init + n;
          trace := trace w_init ++ logs ++ [HttpError msg StatusBadRequest] |})
    ∧ forallb is_Printf logs = true
    ∧ contains msg ("required field field." +:+ "name" +:+ " not set")
    ∧ contains msg "name".
Proof.
  apply (missing_required_field_is_named sample_host compiled_signup
           (sample_post nameless_form) w_init "name" compiled_name).
  - right. split; reflexivity.
  - vm_compute. reflexivity.
  - reflexivity.
  - reflexivity.
  - vm_compute. discriminate.
  - vm_compute. reflexivity.
Defined.

(** The answer to the request without [field.name], in full. *)
Example nameless_request_trace :
  ConfigReceive_ServeHTTP sample_host compiled_signup
    (sample_post nameless_form) w_init
  = (Ret tt,
     {| ticks := 1;
        trace :=
          [ Printf "[DEBUG] Empty field.%s" [VStr "name"];
            Printf "[DEBUG] Parse field.%s=%#v"
                   [VStr "joined_at"; VStr "yesterday"];
            HttpError ("1 error occurred:" +:+ NL +:+ TAB
                       +:+ "* required field field.name not set"
                       +:+ NL +:+ NL)
                      StatusBadRequest ] |}).
Proof. vm_compute. reflexivity. Qed.

Lemma Perform_creates_base_name_directory_witness :
  path_Base "out/record.yaml" = "record.yaml"
  ∧ ∃ o w' rest,
      Perform sample_host compiled_file sample_process w_init = (o, w')
      ∧ trace w' = trace w_init
                   ++ [Printf "[DEBUG] Create file %v" [VStr "out/record.yaml"];
                       MkdirAll (path_Base "out/record.yaml") 493]
                   ++ rest
      ∧ (∀ dir perm, MkdirAll dir perm ∉ rest)
      ∧ (os_error sample_host
           (trace w_init
            ++ [Printf "[DEBUG] Create file %v" [VStr "out/record.yaml"]])
           (MkdirAll (path_Base "out/record.yaml") 493) = None →
         ∃ rest', rest = Create "out/record.yaml" :: rest').
Proof.
  split; [vm_compute; reflexivity|].
  apply (Perform_creates_base_name_directory sample_host compiled_file
           sample_process w_init compiled_file compiled_template).
  - vm_compute. reflexivity.
  - reflexivity.
  - reflexivity.
  - reflexivity.
Defined.

(** [path.Base] on a few paths: the last element, never the directory. *)
Example path_Base_examples :
  path_Base "out/record.yaml" = "record.yaml"
  ∧ path_Base "a/b/c.yaml" = "c.yaml"
  ∧ path_Base "record.yaml" = "record.yaml"
  ∧ path_Base "a/b/" = "b"
  ∧ path_Base "///" = "/"
  ∧ path_Base "" = ".".
Proof. vm_compute. by repeat split. Qed.

Lemma redirect_follows_materialization_witness :
  ∃ fields w1 w2,
    resolveFields readonly_host compiled_signup
      (Form (sample_post sample_form)) None w_init
    = (Ret (None, fields), w1)
    ∧ Perform readonly_host compiled_file
        {| p_ConfigReceive := compiled_signup; p_Fields := fields |} w1
      = (Ret tt, w2)
    ∧ ConfigReceive_ServeHTTP readonly_host compiled_signup
        (sample_post sample_form) w_init
      = (Ret tt,
         {| ticks := ticks w2;
            trace := trace w2
                     ++ [Redirect (redirect_target (sample_post sample_form))
                                  StatusSeeOther] |}).
Proof.
  apply (redirect_follows_materialization readonly_host zeroConfig
           sample_document compiled_schema "/signup"
           compiled_signup compiled_file (sample_post sample_form) w_init).
  - vm_compute. reflexivity.
  - vm_compute. reflexivity.
  - vm_compute. reflexivity.
  - right. split; reflexivity.
  - vm_compute. reflexivity.
Defined.

(** On a read-only file system [Perform] answers with status 500, and the
    redirect to the callback follows. *)
Example readonly_request_trace :
  ConfigReceive_ServeHTTP readonly_host compiled_signup
    (sample_post sample_form) w_init
  = (Ret tt,
     {| ticks := 1;
        trace :=
          [ Printf "[DEBUG] Parse field.%s=%#v" [VStr "name"; VStr "alice"];
            Printf "[DEBUG] Empty field.%s" [VStr "joined_at"];
            Printf "[DEBUG] Create file %v" [VStr "out/record.yaml"];
            MkdirAll "record.yaml" 493;
            Printf "[ERROR] Failed to create directory %v, %v"
                   [VStr "record.yaml"; VStr "read-only file system"];
            HttpError "Could not process request due to a system error, please try again later."
                      StatusInternalServerError;
            Redirect "/thanks" StatusSeeOther ] |}).
Proof. vm_compute. reflexivity. Qed.

(** Multi-valued submissions and boolean texts, run. *)
Example last_value_examples :
  (fetchValue sample_host optional_nick "nick"
     {[ "field.nick" := ["al"; "bo"] ]} w_init).1
  = Ret (set_Value optional_nick (VStr "bo"), None)
  ∧ (fetchValue sample_host optional_newsletter "newsletter"
       {[ "field.newsletter" := ["false"; "T"] ]} w_init).1
    = Ret (set_Value optional_newsletter (VBool true), None)
  ∧ (fetchValue sample_host optional_newsletter "newsletter"
       {[ "field.newsletter" := ["notabool"] ]} w_init).1
    = Ret (set_Value optional_newsletter (VBool false),
           Some (Errorf "cannot parse field field.newsletter to boolean (value is [notabool])")).
Proof. vm_compute. by repeat split. Qed.

(** * Further properties of the code *)

(** ** fetchValue *)

Lemma set_Value_same f : set_Value f (Value f) = f.
Proof. by destruct f. Qed.

Lemma set_Value_twice f v v' : set_Value (set_Value f v) v' = set_Value f v'.
Proof. by destruct f. Qed.

(** X1: [fetchValue] always returns, and the field it leaves differs from
    the one it was given in [Value] at most: no declared attribute and no
    code is touched. *)
Theorem fetchValue_only_sets_Value host f name values w :
  ∃ v err w',
    fetchValue host f name values w = (Ret (set_Value f v, err), w').
Proof.
  unfold fetchValue. unfold_M.
  case_bool_decide; rewrite ?generateTimestamp_eq; simpl;
    destruct (Internal f); simpl;
    repeat (case_bool_decide; simpl);
    try destruct (ParseBool _); simpl;
    rewrite ?set_Value_twice;
    try (by eexists _, _, _);
    exists (Value f); rewrite set_Value_same; by eexists _, _.
Qed.

(** X2: the only submitted values [fetchValue] looks at are those under
    [field.<name>]: two forms that agree on that key give the same
    result. *)
Theorem fetchValue_reads_own_key host f name values values' w :
  values !! ("field." +:+ name) = values' !! ("field." +:+ name) →
  fetchValue host f name values w = fetchValue host f name values' w.
Proof.
  intros Heq. unfold fetchValue, values_index. by rewrite Heq.
Qed.

Lemma fetchValue_reads_own_key_witness :
  fetchValue sample_host optional_nick "nick"
    {[ "field.nick" := ["al"]; "field.name" := ["alice"] ]} w_init
  = fetchValue sample_host optional_nick "nick"
      {[ "field.nick" := ["al"]; "callback" := ["/thanks"] ]} w_init.
Proof.
  apply (fetchValue_reads_own_key sample_host optional_nick "nick").
  vm_compute. reflexivity.
Defined.

(** X3: [fetchValue] reads the clock once when the field generates a
    timestamp and not at all otherwise, and it writes one log line unless
    the field is internal; it does nothing else to the world. *)
Theorem fetchValue_effects host f name values w :
  ∃ f' err logs,
    fetchValue host f name values w
    = (Ret (f', err),
       {| ticks := ticks w + (if generated f then 1 else 0)%nat;
          trace := trace w ++ logs |})
    ∧ forallb is_Printf logs = true
    ∧ length logs = (if Internal f then 0 else 1)%nat.
Proof.
  unfold fetchValue, generated. unfold_M. destruct w as [tk tr].
  case_bool_decide; rewrite ?generateTimestamp_eq; simpl;
    destruct (Internal f); simpl;
    repeat (case_bool_decide; simpl);
    try destruct (ParseBool _); simpl;
    rewrite ?Nat.add_0_r, ?Nat.add_1_r;
    try (by eexists _, _, []; rewrite app_nil_r);
    by eexists _, _, [_].
Qed.

(** X4: generation does not satisfy [required]: a required timestamp field
    that is not internal and for which nothing was submitted gets its
    timestamp and fails all the same with the missing-field error. *)
Theorem required_generated_field_fails host f name values w :
  generateCode f = GenerateCodeTimestamp →
  Internal f = false →
  Required f = true →
  values_index values ("field." +:+ name) = [] →
  fetchValue host f name values w
  = (Ret (set_Value f (VStr (time_Format host (clock host (ticks w))
                               (layout_of f))),
          Some (Errorf ("required field field." +:+ name +:+ " not set"))),
     {| ticks := S (ticks w);
        trace := trace w ++ [Printf "[DEBUG] Empty field.%s" [VStr name]] |}).
Proof.
  intros Hgen Hint Hreq Hv. unfold fetchValue, layout_of. unfold_M.
  rewrite bool_decide_true by done. rewrite generateTimestamp_eq. simpl.
  by rewrite Hint, Hv, Hreq.
Qed.

Lemma required_generated_field_fails_witness :
  fetchValue sample_host required_stamp "stamp" ∅ w_init
  = (Ret (set_Value required_stamp (VStr "2026-10-31"),
          Some (Errorf "required field field.stamp not set")),
     {| ticks := 1;
        trace := [Printf "[DEBUG] Empty field.%s" [VStr "stamp"]] |}).
Proof.
  rewrite (required_generated_field_fails sample_host required_stamp "stamp"
             ∅ w_init); [|reflexivity..].
  vm_compute. reflexivity.
Defined.

(** X5: when the last submitted value of a bool field does not parse,
    the value of the field becomes [false], whatever it was before (a
    configured value, or the timestamp just generated), besides the error. *)
Theorem unparsable_bool_resets_value host f name values w v x :
  Internal f = false →
  typeCode f = TypeCodeBool →
  values !! ("field." +:+ name) = Some v →
  last v = Some x →
  ParseBool x = None →
  ∃ w',
    fetchValue host f name values w
    = (Ret (set_Value f (VBool false),
            Some (Errorf ("cannot parse field field." +:+ name
                          +:+ " to boolean (value is "
                          +:+ show_strings v +:+ ")"))), w').
Proof.
  intros Hint Htc Hv Hlast Hpb. unfold fetchValue. unfold_M.
  rewrite (values_index_lookup _ _ _ Hv), last_index, Hlast.
  assert (length v ≠ 0%nat) as Hlen by (by destruct v).
  destruct (bool_decide (generateCode f = GenerateCodeTimestamp));
    rewrite ?generateTimestamp_eq; simpl;
    rewrite Hint, (bool_decide_false (length v = 0%nat)) by done;
    simpl; rewrite Htc, Hpb; simpl; rewrite ?set_Value_twice; by eexists.
Qed.

Lemma unparsable_bool_resets_value_witness :
  ∃ w',
    fetchValue sample_host bool_stamp "stamp"
      {[ "field.stamp" := ["yes"] ]} w_init
    = (Ret (set_Value bool_stamp (VBool false),
            Some (Errorf ("cannot parse field field." +:+ "stamp"
                          +:+ " to boolean (value is "
                          +:+ show_strings ["yes"] +:+ ")"))), w').
Proof.
  assert (({[ "field.stamp" := ["yes"] ]} : gmap string (list string))
            !! ("field." +:+ "stamp") = Some ["yes"]) as Hv
    by (vm_compute; reflexivity).
  exact (unparsable_bool_resets_value sample_host bool_stamp "stamp"
           {[ "field.stamp" := ["yes"] ]} w_init ["yes"] "yes"
           eq_refl eq_refl Hv eq_refl eq_refl).
Defined.

(** ** fieldMap and Perform *)

Lemma fieldMap_fold (kvs : list (string * ConfigField)) :
  ∀ res : gmap string any,
    NoDup kvs.*1 →
    (∀ k, k ∉ kvs.*1 →
       foldl (λ res '(name, field), <[name := Value field]> res) res kvs !! k
       = res !! k)
    ∧ (∀ k f, (k, f) ∈ kvs →
         foldl (λ res '(name, field), <[name := Value field]> res) res kvs !! k
         = Some (Value f)).
Proof.
  induction kvs as [|[k0 f0] kvs IH]; intros res Hnd.
  { split; [done|]. by intros ?? ?%elem_of_nil. }
  rewrite fmap_cons in Hnd. apply NoDup_cons in Hnd as [Hk0 Hnd].
  simpl in Hk0. cbn [foldl].
  destruct (IH (<[k0 := Value f0]> res) Hnd) as [Hout Hin]. split.
  - intros k Hk. rewrite fmap_cons in Hk.
    apply not_elem_of_cons in Hk as [Hne Hk]. simpl in Hne.
    rewrite (Hout k Hk). by apply lookup_insert_ne.
  - intros k f [[= -> ->]|Hkf]%elem_of_cons.
    + rewrite (Hout k0 Hk0). apply lookup_insert_eq.
    + by apply Hin.
Qed.

(** X6: the record [fieldMap] builds has exactly the names of the
    resolved fields, each with the value of its field; internal and
    generated fields are in it like the others. *)
Theorem fieldMap_lookup (p : Process) (k : string) :
  fieldMap p !! k = Value <$> p_Fields p !! k.
Proof.
  unfold fieldMap.
  destruct (fieldMap_fold (map_to_list (p_Fields p)) ∅
              (NoDup_fst_map_to_list _)) as [Hout Hin].
  destruct (p_Fields p !! k) as [f|] eqn:Hk; simpl.
  - apply Hin. by apply elem_of_map_to_list.
  - rewrite Hout; [done|].
    intros ([k' f] & -> & Hkf%elem_of_map_to_list)%list_elem_of_fmap.
    simpl in Hk. congruence.
Qed.




(** X7: when the template renders and no file-system call fails,
    [Perform] logs the path, creates the directory, creates the file,
    encodes the whole record into it and closes it, in this order, and
    writes nothing to the response. *)
Theorem Perform_success_trace host c p w rc t fileName :
  CreateFile (p_ConfigReceive p) = Some rc →
  nameTemplate rc = Some t →
  template_Clone host t = None →
  template_Execute host t (fieldMap p) p = (fileName, None) →
  formatCode c = FormatCodeYAML →
  (∀ tr e, os_error host tr e = None) →
  Perform host c p w
  = (Ret tt,
     {| ticks := ticks w;
        trace := trace w
                 ++ [Printf "[DEBUG] Create file %v" [VStr fileName];
                     MkdirAll (path_Base fileName) 493;
                     Create fileName;
                     Encode fileName (fieldMap p);
                     Close fileName] |}).
Proof.
  intros Hrc Ht Hclone Hexec Hcode Hfs. unfold Perform.
  rewrite Hrc, Ht, Hclone, Hexec. unfold_M. simpl.
  rewrite !Hfs, (bool_decide_true _ Hcode). simpl. rewrite Hfs. simpl.
  by rewrite <-!(assoc_L (++)).
Qed.

Lemma Perform_success_trace_witness :
  Perform sample_host compiled_file sample_process w_init
  = (Ret tt,
     {| ticks := ticks w_init;
        trace := trace w_init
                 ++ [Printf "[DEBUG] Create file %v" [VStr "out/record.yaml"];
                     MkdirAll (path_Base "out/record.yaml") 493;
                     Create "out/record.yaml";
                     Encode "out/record.yaml" (fieldMap sample_process);
                     Close "out/record.yaml"] |}).
Proof.
  apply (Perform_success_trace sample_host compiled_file sample_process
           w_init compiled_file compiled_template).
  - vm_compute. reflexivity.
  - reflexivity.
  - reflexivity.
  - reflexivity.
  - reflexivity.
  - intros tr e. reflexivity.
Defined.

(** Whatever happens, [Perform] leaves the clock alone and writes to the
    response at most once, and then it is an error with status 500. *)
Lemma Perform_shape host c p w :
  ∃ o evs,
    Perform host c p w
    = (o, {| ticks := ticks w; trace := trace w ++ evs |})
    ∧ (filter is_response evs = []
       ∨ ∃ msg, filter is_response evs
                = [HttpError msg StatusInternalServerError]).
Proof.
  unfold Perform. unfold_M. destruct w as [tk tr]. simpl.
  destruct (CreateFile (p_ConfigReceive p)) as [rc|];
    [|by eexists _, []; rewrite app_nil_r; split; [|left]].
  destruct (nameTemplate rc) as [t|];
    [|by eexists _, []; rewrite app_nil_r; split; [|left]].
  destruct (template_Clone host t);
    [by eexists _, [_; _]; rewrite <-!(assoc_L (++)); split; [|right; eexists]|].
  destruct (template_Execute host t (fieldMap p) p) as [fileName [e|]];
    [by eexists _, [_; _]; rewrite <-!(assoc_L (++)); split; [|right; eexists]|].
  simpl. destruct (os_error host _ (MkdirAll _ _)); simpl;
    [by eexists _, [_; _; _; _]; rewrite <-!(assoc_L (++));
        split; [|right; eexists]|].
  destruct (os_error host _ (Create _)); simpl;
    [by eexists _, [_; _; _; _; _]; rewrite <-!(assoc_L (++));
        split; [|right; eexists]|].
  case_bool_decide; simpl;
    [destruct (os_error host _ (Encode _ _)); simpl|].
  - by eexists _, [_; _; _; _; _; _; _]; rewrite <-!(assoc_L (++));
      split; [|right; eexists].
  - by eexists _, [_; _; _; _; _]; rewrite <-!(assoc_L (++));
      split; [|left].
  - by eexists _, [_; _; _; _]; rewrite <-!(assoc_L (++)); split; [|left].
Qed.

(** X8: once the file was created, closing it is the last thing
    [Perform] does, and it does so once: after encoding, after a failed
    encoding and its answer, and before the panic for an unknown format. *)
Theorem Perform_closes_created_file host c p w rc t fileName :
  CreateFile (p_ConfigReceive p) = Some rc →
  nameTemplate rc = Some t →
  template_Clone host t = None →
  template_Execute host t (fieldMap p) p = (fileName, None) →
  (∀ tr dir perm, os_error host tr (MkdirAll dir perm) = None) →
  (∀ tr name, os_error host tr (Create name) = None) →
  ∃ o pre,
    Perform host c p w
    = (o, {| ticks := ticks w;
             trace := trace w ++ pre ++ [Close fileName] |})
    ∧ Create fileName ∈ pre
    ∧ ∀ name, Close name ∉ pre.
Proof.
  intros Hrc Ht Hclone Hexec Hmk Hcr. unfold Perform.
  rewrite Hrc, Ht, Hclone, Hexec. unfold_M. simpl.
  rewrite Hmk. simpl. rewrite Hcr. simpl.
  case_bool_decide; simpl;
    [destruct (os_error host _ (Encode _ _)); simpl|].
  - eexists _, [_; _; _; _; _; _]. split_and!.
    + by rewrite <-!(assoc_L (++)).
    + do 2 apply list_elem_of_further. apply list_elem_of_here.
    + intros name Hin. by repeat apply elem_of_cons in Hin as [?|Hin];
        try apply elem_of_nil in Hin.
  - eexists _, [_; _; _; _]. split_and!.
    + by rewrite <-!(assoc_L (++)).
    + do 2 apply list_elem_of_further. apply list_elem_of_here.
    + intros name Hin. by repeat apply elem_of_cons in Hin as [?|Hin];
        try apply elem_of_nil in Hin.
  - eexists _, [_; _; _]. split_and!.
    + by rewrite <-!(assoc_L (++)).
    + do 2 apply list_elem_of_further. apply list_elem_of_here.
    + intros name Hin. by repeat apply elem_of_cons in Hin as [?|Hin];
        try apply elem_of_nil in Hin.
Qed.

Lemma Perform_closes_created_file_witness :
  ∃ o pre,
    Perform sample_host rejected_file rejected_process w_init
    = (o, {| ticks := ticks w_init;
             trace := trace w_init ++ pre ++ [Close "out/record.yaml"] |})
    ∧ Create "out/record.yaml" ∈ pre
    ∧ ∀ name, Close name ∉ pre.
Proof.
  apply (Perform_closes_created_file sample_host rejected_file
           rejected_process w_init rejected_file compiled_template).
  - reflexivity.
  - reflexivity.
  - reflexivity.
  - reflexivity.
  - intros tr dir perm. reflexivity.
  - intros tr name. reflexivity.
Defined.

(** X9: a format code other than the one for YAML makes [Perform] panic,
    but only after the directory and the file were created: an empty file
    is left behind, closed, and no response was written. *)
Theorem Perform_unknown_format_panics host c p w rc t fileName :
  CreateFile (p_ConfigReceive p) = Some rc →
  nameTemplate rc = Some t →
  template_Clone host t = None →
  template_Execute host t (fieldMap p) p = (fileName, None) →
  formatCode c ≠ FormatCodeYAML →
  (∀ tr e, os_error host tr e = None) →
  Perform host c p w
  = (Panic "Unexpected format",
     {| ticks := ticks w;
        trace := trace w
                 ++ [Printf "[DEBUG] Create file %v" [VStr fileName];
                     MkdirAll (path_Base fileName) 493;
                     Create fileName;
                     Close fileName] |}).
Proof.
  intros Hrc Ht Hclone Hexec Hcode Hfs. unfold Perform.
  rewrite Hrc, Ht, Hclone, Hexec. unfold_M. simpl.
  rewrite !Hfs, (bool_decide_false _ Hcode). simpl.
  by rewrite <-!(assoc_L (++)).
Qed.

Lemma Perform_unknown_format_panics_witness :
  Perform sample_host rejected_file rejected_process w_init
  = (Panic "Unexpected format",
     {| ticks := ticks w_init;
        trace := trace w_init
                 ++ [Printf "[DEBUG] Create file %v" [VStr "out/record.yaml"];
                     MkdirAll (path_Base "out/record.yaml") 493;
                     Create "out/record.yaml";
                     Close "out/record.yaml"] |}).
Proof.
  apply (Perform_unknown_format_panics sample_host rejected_file
           rejected_process w_init rejected_file compiled_template).
  - reflexivity.
  - reflexivity.
  - reflexivity.
  - reflexivity.
  - vm_compute. discriminate.
  - intros tr e. reflexivity.
Defined.

(** X10: when the template cannot be cloned or executed, [Perform] logs,
    answers with status 500 and makes no file-system call at all. *)
Theorem Perform_template_failure host c p w rc t :
  CreateFile (p_ConfigReceive p) = Some rc →
  nameTemplate rc = Some t →
  template_Clone host t ≠ None
  ∨ (template_Execute host t (fieldMap p) p).2 ≠ None →
  ∃ format args msg,
    Perform host c p w
    = (Ret tt,
       {| ticks := ticks w;
          trace := trace w
                   ++ [Printf format args;
                       HttpError msg StatusInternalServerError] |}).
Proof.
  intros Hrc Ht Hfail. unfold Perform. rewrite Hrc, Ht. unfold_M.
  destruct (template_Clone host t) as [e|].
  { eexists _, _, _. simpl. by rewrite <-!(assoc_L (++)). }
  destruct Hfail as [?|Hfail]; [done|].
  destruct (template_Execute host t (fieldMap p) p) as [out [e|]];
    [|done].
  eexists _, _, _. simpl. by rewrite <-!(assoc_L (++)).
Qed.

Lemma Perform_template_failure_witness :
  ∃ format args msg,
    Perform sample_host unparsed_file unparsed_process w_init
    = (Ret tt,
       {| ticks := ticks w_init;
          trace := trace w_init
                   ++ [Printf format args;
                       HttpError msg StatusInternalServerError] |}).
Proof.
  apply (Perform_template_failure sample_host unparsed_file
           unparsed_process w_init unparsed_file empty_template).
  - reflexivity.
  - reflexivity.
  - right. vm_compute. discriminate.
Defined.



(** ** Parse *)

Lemma parseRoutes_null host (kvs : list (string * option ConfigReceive)) :
  ∀ m err k,
    (k, None) ∈ kvs →
    parseRoutes host kvs m err = Panic "nil pointer dereference".
Proof.
  induction kvs as [|[k0 [r0|]] kvs IH]; intros m err k Hk.
  - by apply elem_of_nil in Hk.
  - apply elem_of_cons in Hk as [[=]|Hk]. simpl.
    destruct (parseRoute host k0 r0 err) as [r' err']. by eapply IH.
  - done.
Qed.

(** X12: a schema that decodes with a null route makes [Parse] panic on
    the nil pointer, whatever else the schema holds; no error is
    returned. *)
Theorem Parse_null_route_panics host c0 data c k :
  yaml_Unmarshal host data c0 = (c, None) →
  Receive c !! k = Some None →
  Parse host c0 data = Panic "nil pointer dereference".
Proof.
  intros Hu Hk. unfold Parse. rewrite Hu.
  by rewrite (parseRoutes_null host _ _ _ k)
    by (by apply elem_of_map_to_list).
Qed.

Lemma Parse_null_route_panics_witness :
  Parse lenient_host zeroConfig null_route_document
  = Panic "nil pointer dereference".
Proof.
  apply (Parse_null_route_panics lenient_host zeroConfig null_route_document
           null_route_schema "/b").
  - vm_compute. reflexivity.
  - vm_compute. reflexivity.
Defined.

(** X13: [Parse] returns a nil error exactly when the decoder reported no
    error and the decoded schema has no defect; an error of the decoder is
    returned as it is, without any entry for the defects. *)
Theorem Parse_succeeds_iff host c0 data c e :
  yaml_Unmarshal host data c0 = (c, e) →
  routes_present c →
  ((∃ c', Parse host c0 data = Ret (c', None))
   ↔ e = None ∧ defects host c = [])
  ∧ ∀ m, e = Some m → Parse host c0 data = Ret (c, Some (Plain m)).
Proof.
  intros Hu Hpresent. split.
  - destruct e as [m|].
    + unfold Parse. rewrite Hu. split; [by intros [c' [=]]|by intros [[=] _]].
    + destruct (Parse_spec host c0 data c Hu Hpresent) as (c' & Hparse & _).
      rewrite Hparse. split.
      * intros [c'' [= _ Herr]]. split; [done|].
        by apply ErrorOrNil_None, fmap_nil_inv in Herr.
      * intros [_ ->]. by exists c'.
  - intros m ->. unfold Parse. by rewrite Hu.
Qed.

Lemma Parse_succeeds_iff_witness :
  ((∃ c', Parse lenient_host zeroConfig mistyped_document = Ret (c', None))
   ↔ Some "yaml: unmarshal errors: line 1: cannot unmarshal !!seq into bool"
     = None
     ∧ defects lenient_host broken_schema = [])
  ∧ ∀ m,
      Some "yaml: unmarshal errors: line 1: cannot unmarshal !!seq into bool"
      = Some m →
      Parse lenient_host zeroConfig mistyped_document
      = Ret (broken_schema, Some (Plain m)).
Proof.
  apply (Parse_succeeds_iff lenient_host zeroConfig mistyped_document).
  - vm_compute. reflexivity.
  - apply routes_present_check. vm_compute. repeat constructor; by eexists.
Defined.

Lemma parseField_declared endpoint fName f err :
  declared_alike f (parseField endpoint fName f err).1.
Proof.
  unfold parseField, declared_alike.
  repeat (case_bool_decide; simpl); done.
Qed.

Lemma parseCreateFile_declared host endpoint cf err :
  Name (parseCreateFile host endpoint cf err).1 = Name cf
  ∧ cf_Format (parseCreateFile host endpoint cf err).1 = cf_Format cf.
Proof.
  unfold parseCreateFile.
  destruct (template_Parse host (Name cf)); simpl;
    repeat (case_bool_decide; simpl); done.
Qed.

(** The routes after [Parse], from those of the decoded schema. *)
Lemma Parse_routes host c0 data c c' err :
  yaml_Unmarshal host data c0 = (c, None) →
  Parse host c0 data = Ret (c', err) →
  (∀ k, Receive c !! k = None → Receive c' !! k = None)
  ∧ (∀ k r, Receive c !! k = Some (Some r) →
       ∃ r', Receive c' !! k = Some (Some r') ∧ compiled_route host k r r').
Proof.
  intros Hu Hparse.
  pose proof (Parse_returns_present _ _ _ _ _ Hu Hparse) as Hpresent.
  unfold Parse in Hparse. rewrite Hu in Hparse.
  destruct (parseRoutes_spec host (map_to_list (Receive c)) (Receive c) []
              (NoDup_fst_map_to_list _)) as (m' & Hrun & Hout & Hin).
  { intros k Hk%elem_of_map_to_list. by apply (Hpresent k). }
  change (ErrorOrNil []) with (@None error) in Hrun.
  rewrite Hrun in Hparse. injection Hparse as <- _. simpl. split.
  - intros k Hk. rewrite Hout; [done|].
    intros ([k' x] & -> & Hkx%elem_of_map_to_list)%list_elem_of_fmap.
    simpl in Hk. congruence.
  - intros k r Hk. apply Hin. by apply elem_of_map_to_list.
Qed.

(** X14: [Parse] neither adds nor drops a route or a field, and leaves
    what the document declared as it was: [internal], [value], [type],
    [generate] and [required] of every field, and the name and the format
    of every file specification. *)
Theorem Parse_keeps_declarations host c0 data c c' err :
  yaml_Unmarshal host data c0 = (c, None) →
  Parse host c0 data = Ret (c', err) →
  (∀ k, Receive c !! k = None → Receive c' !! k = None)
  ∧ ∀ k r, Receive c !! k = Some (Some r) →
      ∃ r', Receive c' !! k = Some (Some r')
        ∧ (∀ n, Fields r !! n = None → Fields r' !! n = None)
        ∧ (∀ n f, Fields r !! n = Some f →
             ∃ f', Fields r' !! n = Some f' ∧ declared_alike f f')
        ∧ (CreateFile r = None → CreateFile r' = None)
        ∧ (∀ cf, CreateFile r = Some cf →
             ∃ cf', CreateFile r' = Some cf'
               ∧ Name cf' = Name cf ∧ cf_Format cf' = cf_Format cf).
Proof.
  intros Hu Hparse.
  destruct (Parse_routes host c0 data c c' err Hu Hparse) as [Hnone Hsome].
  split; [exact Hnone|].
  intros k r Hk. destruct (Hsome k r Hk) as (r' & Hk' & Hfields & Hfile).
  exists r'. split_and!; [done|..].
  - intros n Hn. by rewrite Hfields, Hn.
  - intros n f Hn. rewrite Hfields, Hn. simpl.
    eexists. split; [done|]. apply parseField_declared.
  - intros Hcf. by rewrite Hfile, Hcf.
  - intros cf Hcf. rewrite Hfile, Hcf. simpl.
    eexists. split; [done|]. apply parseCreateFile_declared.
Qed.

Lemma Parse_keeps_declarations_witness :
  (∀ k, Receive broken_schema !! k = None →
        Receive (match Parse sample_host zeroConfig broken_document with
                 | Ret (c', _) => c'
                 | Panic _ => zeroConfig
                 end) !! k = None)
  ∧ ∀ k r, Receive broken_schema !! k = Some (Some r) →
      ∃ r', Receive (match Parse sample_host zeroConfig broken_document with
                     | Ret (c', _) => c'
                     | Panic _ => zeroConfig
                     end) !! k = Some (Some r')
        ∧ (∀ n, Fields r !! n = None → Fields r' !! n = None)
        ∧ (∀ n f, Fields r !! n = Some f →
             ∃ f', Fields r' !! n = Some f' ∧ declared_alike f f')
        ∧ (CreateFile r = None → CreateFile r' = None)
        ∧ (∀ cf, CreateFile r = Some cf →
             ∃ cf', CreateFile r' = Some cf'
               ∧ Name cf' = Name cf ∧ cf_Format cf' = cf_Format cf).
Proof.
  destruct (Parse sample_host zeroConfig broken_document)
    as [[c' err]|msg] eqn:Hparse; [|by vm_compute in Hparse].
  apply (Parse_keeps_declarations sample_host zeroConfig broken_document
           broken_schema c' err).
  - vm_compute. reflexivity.
  - exact Hparse.
Defined.

Lemma defects_nil_field host c k r n f :
  defects host c = [] →
  Receive c !! k = Some (Some r) →
  Fields r !! n = Some f →
  field_defects k n f = [].
Proof.
  intros Hnil Hr Hf.
  destruct (field_defects k n f) as [|d ds] eqn:Hfd; [done|].
  assert (d ∈ defects host c) as Hd;
    [|by rewrite Hnil in Hd; apply elem_of_nil in Hd].
  unfold defects. apply list_elem_of_bind.
  exists (k, Some r). split; [|by apply elem_of_map_to_list].
  simpl. unfold route_defects. apply elem_of_app. left.
  apply list_elem_of_bind. exists (n, f).
  split; [|by apply elem_of_map_to_list].
  rewrite Hfd. apply elem_of_cons. by left.
Qed.

(** X15: in a schema that [Parse] accepted, every field has one of the
    two type codes, the one its declared type stands for, and its
    [generate] is empty or [timestamp], with the code set in the second
    case: [fetchValue] never meets a field whose submitted value it would
    silently leave out. *)
Theorem Parse_ok_field_codes host c0 data c' k r' n f' :
  Parse host c0 data = Ret (c', None) →
  Receive c' !! k = Some (Some r') →
  Fields r' !! n = Some f' →
  (Type_ f' ∈ [""; "string"] ∧ typeCode f' = TypeCodeString
   ∨ Type_ f' = "bool" ∧ typeCode f' = TypeCodeBool)
  ∧ (Generate f' = ""
     ∨ Generate f' = "timestamp" ∧ generateCode f' = GenerateCodeTimestamp).
Proof.
  intros Hparse Hr' Hf'.
  destruct (Parse_ok_decoded host c0 data c' Hparse) as [c Hu].
  pose proof (Parse_returns_present _ _ _ _ _ Hu Hparse) as Hpresent.
  destruct (Parse_spec host c0 data c Hu Hpresent) as (c'' & Hparse' & Hroutes).
  rewrite Hparse in Hparse'. injection Hparse' as <- Herr.
  symmetry in Herr. apply ErrorOrNil_None, fmap_nil_inv in Herr.
  destruct (Hroutes k r' Hr') as (r & Hr & Hfields & _).
  rewrite Hfields in Hf'.
  destruct (Fields r !! n) as [f|] eqn:Hf; [|done].
  injection Hf' as <-.
  pose proof (defects_nil_field host c k r n f Herr Hr Hf) as Hfd.
  destruct (parseField_declared k n f None) as (_ & _ & Hty & Hgen & _).
  rewrite Hty, Hgen, parseField_typeCode, parseField_generateCode.
  unfold field_defects in Hfd. apply app_eq_nil in Hfd as [Hg Ht].
  revert Hg Ht. split_membership.
  repeat (case_bool_decide; simpl); try done; intros _ _;
    rewrite ?elem_of_cons; split; eauto.
Qed.

Lemma Parse_ok_field_codes_witness :
  (Type_ compiled_joined_at ∈ [""; "string"]
   ∧ typeCode compiled_joined_at = TypeCodeString
   ∨ Type_ compiled_joined_at = "bool"
     ∧ typeCode compiled_joined_at = TypeCodeBool)
  ∧ (Generate compiled_joined_at = ""
     ∨ Generate compiled_joined_at = "timestamp"
       ∧ generateCode compiled_joined_at = GenerateCodeTimestamp).
Proof.
  apply (Parse_ok_field_codes sample_host zeroConfig sample_document
           compiled_schema "/signup" compiled_signup "joined_at").
  - vm_compute. reflexivity.
  - vm_compute. reflexivity.
  - vm_compute. reflexivity.
Defined.

(** ** The dispatchers *)

Lemma filter_response_logs (logs : list event) :
  forallb is_Printf logs = true → filter is_response logs = [].
Proof.
  induction logs as [|e logs IH]; [done|]. simpl.
  intros [He Hl]%andb_true_iff. rewrite filter_cons, (IH Hl).
  by destruct e.
Qed.

Lemma not_form_parsed_error r :
  ¬ form_parsed r →
  ∃ m, match ParseMultipartForm r with
       | Some ErrNotMultipart => ParseForm r
       | Some (FormError m) => Some m
       | None => None
       end = Some m.
Proof.
  unfold form_parsed. intros Hno.
  destruct (ParseMultipartForm r) as [[|m]|]; [|by eexists|tauto].
  destruct (ParseForm r) as [m|]; [by eexists|]. tauto.
Qed.



(** X17: on a route without a file specification, a request whose fields
    all resolve is answered with the redirect after logging only: nothing
    is written anywhere. *)
Theorem route_without_file_only_redirects host c r w :
  CreateFile c = None →
  form_parsed r →
  request_errors host c (Form r) = [] →
  ∃ n logs,
    ConfigReceive_ServeHTTP host c r w
    = (Ret tt,
       {| ticks := ticks w + n;
          trace := trace w ++ logs
                   ++ [Redirect (redirect_target r) StatusSeeOther] |})
    ∧ forallb is_Printf logs = true.
Proof.
  intros Hcf Hform Hok.
  destruct (resolveFields_run host c (Form r) w)
    as (fields & n & logs & Hrun & Hlogs & _).
  rewrite Hok in Hrun. simpl in Hrun.
  exists n, logs. split; [|done].
  unfold ConfigReceive_ServeHTTP.
  rewrite (form_parsed_no_error r Hform), bind_run, Hrun, Hcf.
  rewrite bind_run. unfold_M. rewrite redirect_run. simpl.
  by rewrite (assoc_L (++)).
Qed.

Lemma route_without_file_only_redirects_witness :
  ∃ n logs,
    ConfigReceive_ServeHTTP sample_host plain_signup
      (sample_post sample_form) w_init
    = (Ret tt,
       {| ticks := ticks w_init + n;
          trace := trace w_init ++ logs
                   ++ [Redirect (redirect_target (sample_post sample_form))
                                StatusSeeOther] |})
    ∧ forallb is_Printf logs = true.
Proof.
  apply (route_without_file_only_redirects sample_host plain_signup
           (sample_post sample_form) w_init).
  - reflexivity.
  - right. split; reflexivity.
  - vm_compute. reflexivity.
Defined.

Lemma request_errors_failing host form (kvs : list (string * ConfigField)) :
  ('(name, f) ← kvs; from_option entries [] (fetchError host f name form))
  = (λ kf, from_option Error "" (fetchError host kf.2 kf.1 form))
      <$> filter (λ kf, is_Some (fetchError host kf.2 kf.1 form)) kvs.
Proof.
  induction kvs as [|[k f] kvs IH]; [done|].
  rewrite bind_cons, filter_cons, IH. simpl.
  destruct (fetchError host f k form) as [e|] eqn:He; simpl.
  - destruct (fetchError_Plain _ _ _ _ _ He) as [m ->]. by rewrite He.
  - done.
Qed.

(** X18: the aggregated error of a rejected request has one entry for
    each field that fails, the message of that field's error, and no
    other entry. *)
Theorem rejection_lists_failing_fields host c r w :
  form_parsed r →
  failing_fields host c (Form r) ≠ [] →
  ∃ n logs,
    ConfigReceive_ServeHTTP host c r w
    = (Ret tt,
       {| ticks := ticks w + n;
          trace := trace w ++ logs
                   ++ [HttpError
                         (ListFormatFunc
                            ((λ kf, from_option Error ""
                                      (fetchError host kf.2 kf.1 (Form r)))
                               <$> failing_fields host c (Form r)))
                         StatusBadRequest] |})
    ∧ forallb is_Printf logs = true.
Proof.
  intros Hform Hne.
  assert (request_errors host c (Form r)
          = (λ kf, from_option Error ""
                     (fetchError host kf.2 kf.1 (Form r)))
              <$> failing_fields host c (Form r)) as Heq
    by apply request_errors_failing.
  destruct (ServeHTTP_rejects host c r w Hform) as (n & logs & Hrun & Hlogs).
  { rewrite Heq. by intros ?%fmap_nil_inv. }
  exists n, logs. by rewrite <-Heq.
Qed.

Lemma rejection_lists_failing_fields_witness :
  ∃ n logs,
    ConfigReceive_ServeHTTP sample_host compiled_signup
      (sample_post nameless_form) w_init
    = (Ret tt,
       {| ticks := ticks w_init + n;
          trace := trace w_init ++ logs
                   ++ [HttpError
                         (ListFormatFunc
                            ((λ kf, from_option Error ""
                                      (fetchError sample_host kf.2 kf.1
                                         (Form (sample_post nameless_form))))
                               <$> failing_fields sample_host compiled_signup
                                     (Form (sample_post nameless_form))))
                         StatusBadRequest] |})
    ∧ forallb is_Printf logs = true.
Proof.
  apply (rejection_lists_failing_fields sample_host compiled_signup
           (sample_post nameless_form) w_init).
  - right. split; reflexivity.
  - vm_compute. discriminate.
Defined.

Lemma fetchError_names_field host f name values e :
  fetchError host f name values = Some e →
  contains (Error e) ("field." +:+ name).
Proof.
  unfold fetchError, fetchValue. unfold_M.
  case_bool_decide; rewrite ?generateTimestamp_eq; simpl;
    destruct (Internal f); simpl;
    repeat (case_bool_decide; simpl);
    try destruct (Required f); try destruct (ParseBool _); simpl;
    intros [= <-]; simpl;
    first [ apply (contains_app_l "required field "
                     ("field." +:+ name +:+ " not set")),
              (contains_app_r ("field." +:+ name) " not set"),
              contains_refl
          | apply (contains_app_l "cannot parse field "),
              (contains_app_r ("field." +:+ name)), contains_refl ].
Qed.

(** X19: whichever field fails, for a missing required value or for a
    text that is no boolean, the message of the 400 answer contains the
    error of that field and with it its form key [field.<name>]. *)
Theorem rejection_names_every_failing_field host c r w name f e :
  form_parsed r →
  Fields c !! name = Some f →
  fetchError host f name (Form r) = Some e →
  ∃ n logs msg,
    ConfigReceive_ServeHTTP host c r w
    = (Ret tt,
       {| ticks := ticks w + n;
          trace := trace w ++ logs ++ [HttpError msg StatusBadRequest] |})
    ∧ contains msg (Error e)
    ∧ contains msg ("field." +:+ name).
Proof.
  intros Hform Hf He.
  pose proof (request_errors_elem host c (Form r) name f e Hf He) as Hin.
  destruct (ServeHTTP_rejects host c r w Hform) as (n & logs & Hrun & _).
  { intros Hnil. rewrite Hnil in Hin. by apply elem_of_nil in Hin. }
  exists n, logs, (ListFormatFunc (request_errors host c (Form r))).
  apply ListFormatFunc_contains in Hin.
  split_and!; [done..|].
  eapply contains_trans; [exact Hin|].
  by eapply fetchError_names_field.
Qed.

Lemma rejection_names_every_failing_field_witness :
  ∃ n logs msg,
    ConfigReceive_ServeHTTP sample_host
      {| Fields := {[ "newsletter" := optional_newsletter ]};
         CreateFile := None |}
      (sample_post {[ "field.newsletter" := ["maybe"] ]}) w_init
    = (Ret tt,
       {| ticks := ticks w_init + n;
          trace := trace w_init ++ logs ++ [HttpError msg StatusBadRequest] |})
    ∧ contains msg
        (Error (Errorf "cannot parse field field.newsletter to boolean (value is [maybe])"))
    ∧ contains msg ("field." +:+ "newsletter").
Proof.
  apply (rejection_names_every_failing_field sample_host
           {| Fields := {[ "newsletter" := optional_newsletter ]};
              CreateFile := None |}
           (sample_post {[ "field.newsletter" := ["maybe"] ]}) w_init
           "newsletter" optional_newsletter).
  - right. split; reflexivity.
  - vm_compute. reflexivity.
  - vm_compute. reflexivity.
Defined.



Lemma bind_ret_run {A B} (a : A) (k : A → M B) w : (ret a ≫= k) w = k a w.
Proof. reflexivity. Qed.

Lemma fetchValue_ticks host f name values w :
  ticks (fetchValue host f name values w).2
  = (ticks w + (if generated f then 1 else 0))%nat.
Proof.
  unfold fetchValue, generated. unfold_M.
  case_bool_decide; rewrite ?generateTimestamp_eq; simpl;
    destruct (Internal f); simpl;
    repeat (case_bool_decide; simpl);
    try destruct (ParseBool _); simpl; lia.
Qed.

Lemma resolveFields_ticks host form (kvs : list (string * ConfigField)) :
  ∀ acc w,
    ticks (foldM (resolveField host form) acc kvs w).2
    = (ticks w + length (filter (λ kf, generated kf.2) kvs))%nat.
Proof.
  induction kvs as [|[k f] kvs IH]; intros [err m] w.
  { simpl. lia. }
  cbn [foldM]. rewrite bind_run. unfold resolveField at 1.
  rewrite bind_run.
  pose proof (fetchValue_ticks host f k form w) as Ht.
  destruct (fetchValue_returns host f k form w)
    as (f' & e & n & logs & Hrun & _).
  rewrite Hrun in Ht |- *. simpl in Ht.
  unfold_M. rewrite IH, filter_cons. simpl. rewrite Ht.
  destruct (generated f); simpl; lia.
Qed.

(** X21: a request whose form parsed reads the clock once for each field
    of the route that generates a timestamp, whatever becomes of the
    request: each timestamp field gets a reading of its own. *)
Theorem request_reads_clock_per_generated_field host c r w :
  form_parsed r →
  ticks (ConfigReceive_ServeHTTP host c r w).2
  = (ticks w
     + length (filter (λ kf, generated kf.2) (map_to_list (Fields c))))%nat.
Proof.
  intros Hform. unfold ConfigReceive_ServeHTTP.
  rewrite (form_parsed_no_error r Hform), bind_run.
  pose proof (resolveFields_ticks host (Form r) (map_to_list (Fields c))
                (None, ∅) w) as Ht.
  destruct (resolveFields_run host c (Form r) w)
    as (fields & n & logs & Hrun & _ & _).
  unfold resolveFields in Hrun |- *. rewrite Hrun in Ht |- *.
  simpl in Ht. rewrite <-Ht.
  destruct (ErrorOrNil (request_errors host c (Form r))); [done|].
  destruct (CreateFile c) as [cf|];
    [|by rewrite bind_ret_run, redirect_run].
  rewrite bind_run.
  destruct (Perform_shape host cf
              {| p_ConfigReceive := c; p_Fields := fields |}
              {| ticks := ticks w + n; trace := trace w ++ logs |})
    as (o & evs & -> & _).
  destruct o; [by rewrite redirect_run|done].
Qed.

Lemma request_reads_clock_per_generated_field_witness :
  ticks (ConfigReceive_ServeHTTP sample_host compiled_signup
           (sample_post sample_form) w_init).2
  = (ticks w_init
     + length (filter (λ kf, generated kf.2)
                      (map_to_list (Fields compiled_signup))))%nat.
Proof.
  apply (request_reads_clock_per_generated_field sample_host compiled_signup
           (sample_post sample_form) w_init).
  right. split; reflexivity.
Defined.




(** The answers of the handler of a route whose file specification, if
    it has one, is compiled. *)
Lemma handler_answers host c r w :
  (∀ cf, CreateFile c = Some cf →
         (∃ t, nameTemplate cf = Some t) ∧ formatCode cf = FormatCodeYAML) →
  ∃ n evs,
    ConfigReceive_ServeHTTP host c r w
    = (Ret tt, {| ticks := ticks w + n; trace := trace w ++ evs |})
    ∧ ((∃ msg, filter is_response evs = [HttpError msg StatusBadRequest])
       ∨ (∃ url, filter is_response evs = [Redirect url StatusSeeOther])
       ∨ (∃ msg url, filter is_response evs
                     = [HttpError msg StatusInternalServerError;
                        Redirect url StatusSeeOther])).
Proof.
  intros Hcompiled. unfold ConfigReceive_ServeHTTP.
  destruct (match ParseMultipartForm r with
            | Some ErrNotMultipart => ParseForm r
            | Some (FormError m) => Some m
            | None => None
            end) as [m|].
  { exists 0%nat, [HttpError ("Error parsing form: " +:+ m) StatusBadRequest].
    rewrite Nat.add_0_r. split; [done|]. left. by eexists. }
  destruct (resolveFields_run host c (Form r) w)
    as (fields & n & logs & Hrun & Hlogs & _).
  rewrite bind_run, Hrun.
  pose proof (filter_response_logs logs Hlogs) as Hfl.
  destruct (request_errors host c (Form r)) as [|e1 es]; simpl.
  2:{ eexists n, (logs ++ [_]). unfold_M. simpl.
      rewrite (assoc_L (++)). split; [done|]. left.
      rewrite filter_app, Hfl. by eexists. }
  destruct (CreateFile c) as [cf|] eqn:Hcf.
  2:{ rewrite bind_ret_run, redirect_run. simpl.
      eexists n, (logs ++ [_]). rewrite (assoc_L (++)). split; [done|].
      right. left. rewrite filter_app, Hfl. by eexists. }
  destruct (Hcompiled cf eq_refl) as [[t Ht] Hcode].
  rewrite bind_run.
  destruct (Perform_returns host cf
              {| p_ConfigReceive := c; p_Fields := fields |}
              {| ticks := ticks w + n; trace := trace w ++ logs |}
              cf t Hcf Ht Hcode) as [w2 Hperform].
  destruct (Perform_shape host cf
              {| p_ConfigReceive := c; p_Fields := fields |}
              {| ticks := ticks w + n; trace := trace w ++ logs |})
    as (o & evs & Hshape & Hresp).
  rewrite Hperform in Hshape. injection Hshape as <- ->.
  rewrite Hperform, redirect_run. simpl.
  eexists n, (logs ++ evs ++ [_]). rewrite !(assoc_L (++)).
  split; [done|]. right.
  rewrite !filter_app, Hfl. simpl.
  destruct Hresp as [->|[msg ->]];
    [left; eexists|right; eexists _, _]; reflexivity.
Qed.

(** X23: once the schema compiled, every request is answered without a
    panic, in one of four ways: not found (when the path is not a route),
    status 400, the redirect with status 303, or an error of status 500
    followed by that redirect. *)
Theorem every_request_is_answered host c0 data cfg r w :
  Parse host c0 data = Ret (cfg, None) →
  ∃ n evs,
    Config_ServeHTTP host cfg r w
    = (Ret tt, {| ticks := ticks w + n; trace := trace w ++ evs |})
    ∧ answer_shape evs
    ∧ (filter is_response evs = [NotFound]
       ↔ ∀ h, Receive cfg !! URL_Path r ≠ Some (Some h)).
Proof.
  intros Hparse. unfold Config_ServeHTTP, answer_shape.
  destruct (Receive cfg !! URL_Path r) as [[h|]|] eqn:Hroute.
  - rewrite bind_run. unfold log_Printf at 1, emit at 1.
    destruct (handler_answers host h r
                {| ticks := ticks w;
                   trace := trace w
                            ++ [Printf "%s %s"
                                  [VStr (Method r); VStr (URL_Path r)]] |})
      as (n & evs & -> & Hshape).
    { intros cf Hcf.
      exact (Parse_ok_file host c0 data cfg (URL_Path r) h cf
               Hparse Hroute Hcf). }
    simpl. exists n, (Printf "%s %s" [VStr (Method r); VStr (URL_Path r)] :: evs).
    split_and!.
    + by rewrite <-(assoc_L (++)).
    + rewrite filter_cons. simpl. tauto.
    + rewrite filter_cons. simpl. split.
      * intros Hnf. destruct Hshape as [[? H]|[[? H]|(? & ? & H)]];
          rewrite H in Hnf; discriminate Hnf.
      * intros Hno. by destruct (Hno h).
  - exists 0%nat, [Printf "%s %s: 404 Not Found"
                     [VStr (Method r); VStr (URL_Path r)]; NotFound].
    unfold_M. simpl. rewrite Nat.add_0_r, <-(assoc_L (++)).
    split_and!; [done|left; reflexivity|].
    split; [done|intros _; reflexivity].
  - exists 0%nat, [Printf "%s %s: 404 Not Found"
                     [VStr (Method r); VStr (URL_Path r)]; NotFound].
    unfold_M. simpl. rewrite Nat.add_0_r, <-(assoc_L (++)).
    split_and!; [done|left; reflexivity|].
    split; [done|intros _; reflexivity].
Qed.

Lemma every_request_is_answered_witness :
  ∃ n evs,
    Config_ServeHTTP readonly_host compiled_schema
      (sample_post sample_form) w_init
    = (Ret tt,
       {| ticks := ticks w_init + n; trace := trace w_init ++ evs |})
    ∧ answer_shape evs
    ∧ (filter is_response evs = [NotFound]
       ↔ ∀ h, Receive compiled_schema !! URL_Path (sample_post sample_form)
              ≠ Some (Some h)).
Proof.
  apply (every_request_is_answered readonly_host zeroConfig sample_document
           compiled_schema (sample_post sample_form) w_init).
  vm_compute. reflexivity.
Defined.
